(** * clari: the job queue (src/task_queue.py) and its store (src/storage.py)

    A shallow embedding of the scheduling core of the repository:
    - [Task], the job record (a Python dataclass);
    - [Storage], the SQLite table [tasks] with [save_task] and
      [get_pending_tasks];
    - [TaskQueue], with [add_task], the coroutine [process_task],
      [_save_result], the loop [run] and the watcher's [on_modified].

    Python objects are values, exceptions are explicit results, and the
    asyncio event loop is a labelled step function: every label is one
    atomic slice of code between two suspension points, together with what
    the outside world answered (the file contents, the client's reply,
    whether a write went through). *)

From Stdlib Require Import String Ascii ZArith Lia DecimalString DecimalNat.
From stdpp Require Import base list strings sorting.

#[local] Set Warnings "-register-all".
#[local] Open Scope nat_scope.

(** ** Python values *)

Module Py.

(** The values that travel through [Task.result]: [None], and what
    [json] can serialise. *)
Inductive val : Type :=
| None_
| Bool (b : bool)
| Int (n : Z)
| Str (s : string)
| List (items : list val)
| Dict (items : list (string * val)).

(** Python's truth value testing, as used by [x if cond else y]. *)
Definition truthy (v : val) : bool :=
  match v with
  | None_ => false
  | Bool b => b
  | Int n => negb (n =? 0)%Z
  | Str s => negb (String.eqb s "")
  | List items => match items with [] => false | _ => true end
  | Dict items => match items with [] => false | _ => true end
  end.

(** An exception instance: its class and its message ([str(e)]). *)
Inductive exn : Type := Exception (cls : string) (msg : string).

Definition str (e : exn) : string := let 'Exception _ msg := e in msg.

(** [s.endswith(suffix)] *)
Definition endswith (s suffix : string) : bool :=
  let n := String.length s in
  let k := String.length suffix in
  (k <=? n) && String.eqb (substring (n - k) k s) suffix.

(** [str(n)] for a non-negative int. *)
Definition str_of_nat (n : nat) : string :=
  NilEmpty.string_of_uint (Nat.to_uint n).

End Py.

(** ** pathlib: [str(Path(s))] on a POSIX system *)

Module pathlib.

Definition sep : ascii := "/"%char.

(** [s.split('/')]; [cur] is the component being read. *)
Fixpoint split (s cur : string) : list string :=
  match s with
  | EmptyString => [cur]
  | String c s' =>
      if Ascii.eqb c sep then cur :: split s' ""
      else split s' (cur +:+ String c "")
  end.

(** [len(part) - len(part.lstrip('/'))] *)
Fixpoint leading_seps (s : string) : nat :=
  match s with
  | String c s' => if Ascii.eqb c sep then S (leading_seps s') else 0
  | EmptyString => 0
  end.

(** [splitroot]: two leading slashes are kept, any other number is one. *)
Definition root (s : string) : string :=
  match leading_seps s with
  | 0 => ""
  | 2 => "//"
  | _ => "/"
  end.

(** The components that are neither empty nor ['.']. *)
Definition parts (s : string) : list string :=
  filter (fun x => x <> "" /\ x <> ".") (split s "").

Fixpoint join (l : list string) : string :=
  match l with
  | [] => ""
  | [x] => x
  | x :: rest => x +:+ "/" +:+ join rest
  end.

(** [str(Path(s))] *)
Definition Path (s : string) : string :=
  match root s, parts s with
  | EmptyString, [] => "."
  | r, l => r +:+ join l
  end.

End pathlib.

(** The text produced by [json.dumps v] is kept symbolic: it is the
    serialisation of [v]. *)
Module json.
Inductive text : Type := dumps (v : Py.val).
End json.

(** ** datetime *)

Module datetime.

Record t : Type := mk {
  year : nat; month : nat; day : nat;
  hour : nat; minute : nat; second : nat; microsecond : nat }.

(** ['%04d'], ['%02d']: pad with zeros on the left up to width [w]. *)
Definition zfill (w : nat) (s : string) : string :=
  Nat.iter (w - String.length s) (String "0") s.

Definition pad (w n : nat) : string := zfill w (Py.str_of_nat n).

(** [dt.strftime('%Y%m%d_%H%M%S')] *)
Definition strftime (dt : t) : string :=
  pad 4 (year dt) +:+ pad 2 (month dt) +:+ pad 2 (day dt) +:+ "_" +:+
  pad 2 (hour dt) +:+ pad 2 (minute dt) +:+ pad 2 (second dt).

Definition fields (dt : t) : list nat :=
  [year dt; month dt; day dt; hour dt; minute dt; second dt; microsecond dt].

Fixpoint lex_leb (a b : list nat) : bool :=
  match a, b with
  | [], _ => true
  | _ :: _, [] => false
  | x :: a', y :: b' => (x <? y) || ((x =? y) && lex_leb a' b')
  end.

(** [a <= b] on naive datetimes. *)
Definition leb (a b : t) : bool := lex_leb (fields a) (fields b).

End datetime.

(** ** The job record: [@dataclass class Task] *)

Module Task.

(** The four literals the queue ever assigns to [status]. *)
Inductive Status : Type := pending | running | completed | failed.

Definition Status_eqb (a b : Status) : bool :=
  match a, b with
  | pending, pending | running, running
  | completed, completed | failed, failed => true
  | _, _ => false
  end.

Record t : Type := mk {
  id : string;
  type : string;
  input_path : string;
  status : Status;
  created_at : datetime.t;
  result : Py.val;
  priority : Z }.

(** [Task(id=.., type=.., input_path=.., priority=..)]: the other fields
    take the class defaults.  The default of [created_at] is the value
    the expression [datetime.now()] had when the class body was executed
    (line 17); it is an attribute of the class, passed here as
    [class_created_at]. *)
Definition new (class_created_at : datetime.t)
    (id type input_path : string) (priority : Z) : t :=
  {| id := id; type := type; input_path := input_path;
     status := pending; created_at := class_created_at;
     result := Py.None_; priority := priority |}.

Definition set_status (s : Status) (k : t) : t :=
  {| id := id k; type := type k; input_path := input_path k;
     status := s; created_at := created_at k;
     result := result k; priority := priority k |}.

Definition set_result (r : Py.val) (k : t) : t :=
  {| id := id k; type := type k; input_path := input_path k;
     status := status k; created_at := created_at k;
     result := r; priority := priority k |}.

Definition is_pending (k : t) : bool := Status_eqb (status k) pending.
Definition is_running (k : t) : bool := Status_eqb (status k) running.
Definition is_terminal (k : t) : bool :=
  Status_eqb (status k) completed || Status_eqb (status k) failed.

End Task.

(** ** The store: [class Storage] over the table [tasks] *)

Module Storage.

(** One row of [tasks]; [result] is the JSON column, [None] is SQL NULL. *)
Record Row : Type := mkRow {
  id : string;
  type : string;
  input_path : string;
  status : Task.Status;
  created_at : datetime.t;
  result : option json.text;
  priority : Z }.

(** The table, rows in rowid order. *)
Definition table : Type := list Row.

(** [CREATE TABLE IF NOT EXISTS tasks (...)] *)
Definition init_db (db : option table) : table :=
  match db with Some rows => rows | None => [] end.

(** The tuple bound to the seven [?] of [save_task]. *)
Definition row_of_task (task : Task.t) : Row :=
  {| id := Task.id task;
     type := Task.type task;
     input_path := Task.input_path task;
     status := Task.status task;
     created_at := Task.created_at task;
     result := if Py.truthy (Task.result task)
               then Some (json.dumps (Task.result task)) else None;
     priority := Task.priority task |}.

(** [INSERT OR REPLACE] on the primary key [id]: the conflicting row is
    deleted and the new row gets the next rowid. *)
Definition insert_or_replace (r : Row) (db : table) : table :=
  filter (fun r' => id r' <> id r) db ++ [r].

(** [save_task]: [fault] is what SQLite answered, [Some msg] when the
    statement raised ([sqlite3.OperationalError]); the [with] block then
    rolls back and the exception propagates. *)
Definition save_task (fault : option string) (db : table) (task : Task.t)
    : Py.exn + table :=
  match fault with
  | Some msg => inl (Py.Exception "OperationalError" msg)
  | None => inr (insert_or_replace (row_of_task task) db)
  end.

(** [ORDER BY priority DESC]: an insertion sort on the one key; rows with
    equal priority come out in scan (rowid) order. *)
Fixpoint insert_desc (r : Row) (sorted : list Row) : list Row :=
  match sorted with
  | [] => [r]
  | x :: rest =>
      if (priority x <=? priority r)%Z then r :: x :: rest
      else x :: insert_desc r rest
  end.

Definition order_by_priority_desc (rows : list Row) : list Row :=
  foldr insert_desc [] rows.

Definition is_pending (r : Row) : bool :=
  Task.Status_eqb (status r) Task.pending.

(** [SELECT * FROM tasks WHERE status='pending' ORDER BY priority DESC] *)
Definition get_pending_tasks (db : table) : list Row :=
  order_by_priority_desc (filter (fun r => is_pending r = true) db).

End Storage.

(** ** The queue: [class TaskQueue] *)

Module TaskQueue.

(** *** What the queue does to the outside world *)

(** The calls to the collaborators are recorded as events, among them the
    calls to [ProgressTracker], whose module [progress_tracker] [run]
    imports and only calls. *)

Inductive event : Type :=
| LogInfo (msg : string)                 (* logging.info *)
| LogError (msg : string)                (* logging.error *)
| StoreSave (task_id : string)           (* self.storage.save_task(task) *)
| ArtifactWrite (file : string)          (* open(output_file, 'w'), json.dump *)
| ProgressNew (total : nat)              (* ProgressTracker(len(self.tasks)) *)
| ProgressUpdate (path : string) (status : Task.Status) (message : string)
| Returned.                              (* return progress.get_summary() *)

(** *** The object *)

(** [self.tasks], [self.running], and the attribute [self.storage], which
    [add_task] reads; an attribute that was never assigned is [None] here. *)
Record t : Type := mk {
  tasks : list Task.t;
  running : bool;
  storage : option string }.

(** [Storage()]: the handle is the path of the database file. *)
Definition Storage_handle : string := "data/tasks.db".

(** [TaskQueue.__init__] (lines 22-26): no [storage] is assigned. *)
Definition __init__ : t :=
  {| tasks := []; running := false; storage := None |}.

(** *** Where [run] and its coroutines are *)

(** One [process_task] coroutine wrapped by [asyncio.gather]. *)
Inductive pc : Type :=
| Created        (* scheduled, has not run yet *)
| Suspended      (* inside [await self.client. ...] *)
| Finished.      (* [process_task] has returned *)

(** The local variable [batch] holds references to the records of
    [self.tasks]; a reference is the record's index in the list. *)
Inductive phase : Type :=
| Idle                                   (* [run] is not executing *)
| LoopHead (batch : list nat)            (* at the [while] test, line 95 *)
| Gather (batch : list (nat * pc)).      (* in [await asyncio.gather], line 102 *)

(** The process: the queue object, the class attribute
    [Task.created_at], the database file, the [results] directory, the
    effects so far (oldest first) and the position of [run]. *)
Record state : Type := mkState {
  queue : t;
  class_created_at : datetime.t;
  db : Storage.table;
  results : list (string * json.text);
  trace : list event;
  loop : phase }.

Definition with_tasks (f : list Task.t -> list Task.t) (s : state) : state :=
  {| queue := {| tasks := f (tasks (queue s));
                 running := running (queue s);
                 storage := storage (queue s) |};
     class_created_at := class_created_at s; db := db s;
     results := results s; trace := trace s; loop := loop s |}.

Definition with_running (b : bool) (s : state) : state :=
  {| queue := {| tasks := tasks (queue s); running := b;
                 storage := storage (queue s) |};
     class_created_at := class_created_at s; db := db s;
     results := results s; trace := trace s; loop := loop s |}.

Definition with_db (d : Storage.table) (s : state) : state :=
  {| queue := queue s; class_created_at := class_created_at s; db := d;
     results := results s; trace := trace s; loop := loop s |}.

Definition with_results (r : list (string * json.text)) (s : state) : state :=
  {| queue := queue s; class_created_at := class_created_at s; db := db s;
     results := r; trace := trace s; loop := loop s |}.

Definition with_loop (p : phase) (s : state) : state :=
  {| queue := queue s; class_created_at := class_created_at s; db := db s;
     results := results s; trace := trace s; loop := p |}.

Definition emit (es : list event) (s : state) : state :=
  {| queue := queue s; class_created_at := class_created_at s; db := db s;
     results := results s; trace := trace s ++ es; loop := loop s |}.

(** *** [add_task] (lines 35-47) *)

(** [f"{task_type}_{len(self.tasks)}_{datetime.now().strftime(...)}"] *)
Definition mint_id (task_type : string) (n : nat) (now : datetime.t) : string :=
  task_type +:+ "_" +:+ Py.str_of_nat n +:+ "_" +:+ datetime.strftime now.

Definition str_of_Z (z : Z) : string :=
  NilEmpty.string_of_int (Z.to_int z).

(** [now] is the clock at the call, [fault] what the database answers. *)
Definition add_task (now : datetime.t) (fault : option string)
    (task_type input_path : string) (priority : Z) (s : state)
    : (Py.exn + string) * state :=
  let task_id := mint_id task_type (length (tasks (queue s))) now in
  let task := Task.new (class_created_at s) task_id task_type input_path priority in
  match storage (queue s) with
  | None =>
      (inl (Py.Exception "AttributeError"
              "'TaskQueue' object has no attribute 'storage'"), s)
  | Some _ =>
      match Storage.save_task fault (db s) task with
      | inl e => (inl e, emit [StoreSave task_id] s)
      | inr db' =>
          (inr task_id,
           emit [StoreSave task_id;
                 LogInfo ("Added task " +:+ task_id +:+
                          " to queue with priority " +:+ str_of_Z priority)]
             (with_tasks (fun l => l ++ [task]) (with_db db' s)))
      end
  end.

(** *** [_save_result] (lines 74-88) *)

Definition status_name (st : Task.Status) : string :=
  match st with
  | Task.pending => "pending" | Task.running => "running"
  | Task.completed => "completed" | Task.failed => "failed"
  end.

(** [dt.isoformat()] *)
Definition isoformat (dt : datetime.t) : string :=
  datetime.pad 4 (datetime.year dt) +:+ "-" +:+
  datetime.pad 2 (datetime.month dt) +:+ "-" +:+
  datetime.pad 2 (datetime.day dt) +:+ "T" +:+
  datetime.pad 2 (datetime.hour dt) +:+ ":" +:+
  datetime.pad 2 (datetime.minute dt) +:+ ":" +:+
  datetime.pad 2 (datetime.second dt) +:+
  (if datetime.microsecond dt =? 0 then ""
   else "." +:+ datetime.pad 6 (datetime.microsecond dt)).

Definition output_file (task : Task.t) : string :=
  "results/" +:+ Task.id task +:+ "_result.json".

Definition result_document (task : Task.t) : Py.val :=
  Py.Dict [("task_id", Py.Str (Task.id task));
           ("type", Py.Str (Task.type task));
           ("input_path", Py.Str (Task.input_path task));
           ("status", Py.Str (status_name (Task.status task)));
           ("created_at", Py.Str (isoformat (Task.created_at task)));
           ("result", Task.result task)].

(** [open(.., 'w')] replaces a file of the same name. *)
Definition write_file (name : string) (content : json.text)
    (dir : list (string * json.text)) : list (string * json.text) :=
  filter (fun f => f.1 <> name) dir ++ [(name, content)].

(** [write] is what the file system answers: [Some e] when [mkdir],
    [open] or [json.dump] raised [e].  The result is the exception, if
    any, the directory and the effect.  The directory lists the documents
    written in full: a write that raised adds none, and what it left of
    the file of this record (created, or cut short by [open(.., 'w')]) is
    not tracked. *)
Definition _save_result (write : option Py.exn) (task : Task.t)
    (dir : list (string * json.text))
    : option Py.exn * list (string * json.text) * list event :=
  match write with
  | Some e => (Some e, dir, [ArtifactWrite (output_file task)])
  | None =>
      (None,
       write_file (output_file task) (json.dumps (result_document task)) dir,
       [ArtifactWrite (output_file task)])
  end.

(** *** [process_task] (lines 49-72) *)

(** The [except Exception as e] block, lines 69-72. *)
Definition on_exception (e : Py.exn) (task : Task.t) : Task.t * list event :=
  let task1 := Task.set_status Task.failed task in
  let task2 := Task.set_result (Py.Dict [("error", Py.Str (Py.str e))]) task1 in
  (task2,
   [LogError ("Task " +:+ Task.id task2 +:+ " failed: " +:+ Py.str e)]).

(** Lines 66-67, inside the [try], and lines 70-71 when [_save_result]
    raises: the record and directory at the end of the slice.  The
    assignments on the way are listed one by one by [History.writes]. *)
Definition complete (write : option Py.exn) (task : Task.t)
    (dir : list (string * json.text))
    : Task.t * list (string * json.text) * list event :=
  let task1 := Task.set_status Task.completed task in
  match _save_result write task1 dir with
  | (None, dir', evs) => (task1, dir', evs)
  | (Some e, dir', evs) =>
      let '(task2, evs') := on_exception e task1 in (task2, dir', evs ++ evs')
  end.

(** Does this [type] read the input file before calling the client? *)
Definition reads_file (task : Task.t) : bool :=
  String.eqb (Task.type task) "code_improvement"
  || String.eqb (Task.type task) "test_generation".

Definition calls_client (task : Task.t) : bool :=
  reads_file task || String.eqb (Task.type task) "dependency_check".

(** The first slice of the coroutine: from line 52 to the first [await],
    or to the end when there is none.  [read] is the outcome of
    [open(task.input_path).read()]. *)
Definition process_task_begin (read : Py.exn + string) (write : option Py.exn)
    (task : Task.t) (dir : list (string * json.text))
    : Task.t * pc * list (string * json.text) * list event :=
  let task1 := Task.set_status Task.running task in
  if calls_client task1 then
    match reads_file task1, read with
    | true, inl e =>
        let '(task2, evs) := on_exception e task1 in (task2, Finished, dir, evs)
    | _, _ => (task1, Suspended, dir, [])
    end
  else
    let '(task2, dir', evs) := complete write task1 dir in
    (task2, Finished, dir', evs).

(** The second slice: the awaited client call returns [reply] or raises. *)
Definition process_task_resume (reply : Py.exn + Py.val) (write : option Py.exn)
    (task : Task.t) (dir : list (string * json.text))
    : Task.t * list (string * json.text) * list event :=
  match reply with
  | inr r => complete write (Task.set_result r task) dir
  | inl e => let '(task2, evs) := on_exception e task in (task2, dir, evs)
  end.

(** *** [run] (lines 90-108) *)

(** [[t for t in self.tasks if t.status == 'pending']], as references. *)
Definition pending_tasks (l : list Task.t) : list nat :=
  filter (fun i => Task.is_pending <$> l !! i = Some true) (seq 0 (length l)).

Definition pc_of (i : nat) (batch : list (nat * pc)) : option pc :=
  snd <$> find (fun x => fst x =? i) batch.

Definition set_pc (i : nat) (p : pc) (batch : list (nat * pc)) : list (nat * pc) :=
  (fun x => if fst x =? i then (i, p) else x) <$> batch.

Definition all_finished (batch : list (nat * pc)) : bool :=
  forallb (fun x => match snd x with Finished => true | _ => false end) batch.

(** Lines 104-106, one call of [progress.update] per record of the batch. *)
Definition progress_updates (l : list Task.t) (batch : list nat) : list event :=
  omap (fun i =>
          (fun k => ProgressUpdate (Task.input_path k) (Task.status k)
                      (if Task.Status_eqb (Task.status k) Task.completed
                       then "Completed" else "Failed")) <$> l !! i) batch.

(** [on_modified] of the handler installed by [watch_directory]
    (lines 119-121): the test is on the event's string, the record gets
    [Path(event.src_path)]. *)
Definition on_modified (now : datetime.t) (fault : option string)
    (src_path : string) (s : state) : (Py.exn + option string) * state :=
  if Py.endswith src_path ".py" then
    match add_task now fault "code_improvement" (pathlib.Path src_path) 5 s with
    | (inl e, s') => (inl e, s')
    | (inr task_id, s') => (inr (Some task_id), s')
    end
  else (inr None, s).

(** What can happen next.  The labels of [run] are the slices of code
    between suspension points; the others are calls from outside. *)
Inductive label : Type :=
| CallRun                                    (* lines 92-93 *)
| Iterate                                    (* lines 95-102, to the await *)
| Start (i : nat) (read : Py.exn + string) (write : option Py.exn)
| Resume (i : nat) (reply : Py.exn + Py.val) (write : option Py.exn)
| Settle                                     (* gather returns; lines 104-106 *)
| Enqueue (now : datetime.t) (fault : option string)
          (task_type input_path : string) (priority : Z)
| Modified (now : datetime.t) (fault : option string) (src_path : string)
| Stop.                                      (* self.running = False *)

Definition step (l : label) (s : state) : option state :=
  match l, loop s with
  | CallRun, Idle =>
      Some (with_loop (LoopHead [])
              (emit [ProgressNew (length (tasks (queue s)))]
                 (with_running true s)))
  | Iterate, LoopHead _ =>
      if running (queue s) && negb (bool_decide (tasks (queue s) = [])) then
        match pending_tasks (tasks (queue s)) with
        | [] => Some (with_loop Idle (emit [Returned] s))
        | pending =>
            Some (with_loop (Gather ((fun i => (i, Created)) <$> take 3 pending)) s)
        end
      else Some (with_loop Idle (emit [Returned] s))
  | Start i read write, Gather batch =>
      match pc_of i batch, tasks (queue s) !! i with
      | Some Created, Some task =>
          let '(task', p, dir, evs) :=
            process_task_begin read write task (results s) in
          Some (with_loop (Gather (set_pc i p batch))
                  (emit evs (with_results dir
                     (with_tasks (fun l => <[i := task']> l) s))))
      | _, _ => None
      end
  | Resume i reply write, Gather batch =>
      match pc_of i batch, tasks (queue s) !! i with
      | Some Suspended, Some task =>
          let '(task', dir, evs) :=
            process_task_resume reply write task (results s) in
          Some (with_loop (Gather (set_pc i Finished batch))
                  (emit evs (with_results dir
                     (with_tasks (fun l => <[i := task']> l) s))))
      | _, _ => None
      end
  | Settle, Gather batch =>
      if all_finished batch then
        Some (with_loop (LoopHead (fst <$> batch))
                (emit (progress_updates (tasks (queue s)) (fst <$> batch)) s))
      else None
  | Enqueue now fault task_type input_path priority, _ =>
      Some (snd (add_task now fault task_type input_path priority s))
  | Modified now fault src_path, _ =>
      Some (snd (on_modified now fault src_path s))
  | Stop, _ => Some (with_running false s)
  | _, _ => None
  end.

Fixpoint exec (ls : list label) (s : state) : option state :=
  match ls with
  | [] => Some s
  | l :: ls' =>
      match step l s with
      | Some s' => exec ls' s'
      | None => None
      end
  end.

(** A process in which [run] has not been called and whose records all
    come from [add_task]: none is [running]. *)
Definition initial (s : state) : Prop :=
  loop s = Idle /\ Forall (fun k => Task.status k <> Task.running) (tasks (queue s)).

(** The number of records with status [running]. *)
Definition running_count (s : state) : nat :=
  length (filter (fun k => Task.is_running k = true) (tasks (queue s))).

(** The process right after [TaskQueue()], at class time [t0]. *)
Definition fresh (t0 : datetime.t) (db0 : Storage.table) : state :=
  {| queue := __init__; class_created_at := t0; db := db0;
     results := []; trace := []; loop := Idle |}.

(** The same with [queue.storage = Storage()] done by the caller. *)
Definition fresh_with_storage (t0 : datetime.t) (db0 : Storage.table) : state :=
  {| queue := {| tasks := []; running := false; storage := Some Storage_handle |};
     class_created_at := t0; db := db0;
     results := []; trace := []; loop := Idle |}.

End TaskQueue.

(** ** What the specification asks, as predicates on the embedding *)

Module Contract.

(** Priority descending. *)
Definition by_priority (a b : Storage.Row) : Prop :=
  (Storage.priority b <= Storage.priority a)%Z.

(** Priority descending, then [created_at] ascending. *)
Definition canonical (a b : Storage.Row) : Prop :=
  (Storage.priority b < Storage.priority a)%Z
  \/ (Storage.priority a = Storage.priority b
      /\ datetime.leb (Storage.created_at a) (Storage.created_at b) = true).

(** [pending()] as section 4.1 describes it. *)
Definition pending_in_canonical_order (db : Storage.table) : Prop :=
  Storage.get_pending_tasks db ≡ₚ filter (fun r => Storage.is_pending r = true) db
  /\ StronglySorted canonical (Storage.get_pending_tasks db).

(** [enqueue] as section 4.2 describes it at a failed store write: the
    error reaches the caller and the record is queued all the same. *)
Definition queued_despite_failure (now : datetime.t) (fault : option string)
    (task_type input_path : string) (priority : Z) (s : TaskQueue.state) : Prop :=
  forall e s', TaskQueue.add_task now fault task_type input_path priority s = (inl e, s') ->
    exists task, task ∈ TaskQueue.tasks (TaskQueue.queue s')
      /\ Task.id task = TaskQueue.mint_id task_type
                          (length (TaskQueue.tasks (TaskQueue.queue s))) now.

(** A terminal transition of record [i] between two states. *)
Definition becomes (st : Task.Status) (i : nat) (s s' : TaskQueue.state) : Prop :=
  exists k k', TaskQueue.tasks (TaskQueue.queue s) !! i = Some k
    /\ TaskQueue.tasks (TaskQueue.queue s') !! i = Some k'
    /\ Task.status k <> st /\ Task.status k' = st.

(** The effects a step added to the trace. *)
Definition emitted (s s' : TaskQueue.state) : list TaskQueue.event :=
  drop (length (TaskQueue.trace s)) (TaskQueue.trace s').

(** Section 7: every terminal transition attempts a store write and an
    artifact write. *)
Definition terminal_writes_attempted (i : nat) (s s' : TaskQueue.state) : Prop :=
  forall k', TaskQueue.tasks (TaskQueue.queue s') !! i = Some k' ->
    TaskQueue.StoreSave (Task.id k') ∈ emitted s s'
    /\ TaskQueue.ArtifactWrite (TaskQueue.output_file k') ∈ emitted s s'.

End Contract.

(** ** Concrete processes used below *)

Module Scenario.

Definition class_time : datetime.t := datetime.mk 2024 1 1 9 0 0 0.
Definition noon : datetime.t := datetime.mk 2024 1 1 12 0 0 0.
Definition later : datetime.t := datetime.mk 2024 1 1 12 0 7 250.

(** Two records of equal priority; [late] was created after [early]. *)
Definition early : Task.t :=
  Task.mk "code_improvement_0_20240101_120000" "code_improvement" "a.py"
    Task.pending noon Py.None_ 5.
Definition late : Task.t :=
  Task.mk "code_improvement_1_20240101_120007" "code_improvement" "b.py"
    Task.pending later Py.None_ 5.

Definition enqueue (priority : Z) : TaskQueue.label :=
  TaskQueue.Enqueue noon None "code_improvement" "a.py" priority.

(** The process after [TaskQueue()] and [queue.storage = Storage()]. *)
Definition start : TaskQueue.state :=
  TaskQueue.fresh_with_storage class_time [].



Definition enqueue_five : list TaskQueue.label :=
  [enqueue 1; enqueue 5; enqueue 0; enqueue 5; enqueue 3].

(** Five jobs with priorities 1, 5, 0, 5, 3 on a queue that was given a
    store. *)
Definition five_jobs : option TaskQueue.state :=
  TaskQueue.exec enqueue_five start.

Definition priorities_of (s : TaskQueue.state) (batch : list nat) : list Z :=
  omap (fun i => Task.priority <$> TaskQueue.tasks (TaskQueue.queue s) !! i) batch.

Definition batch_of (s : TaskQueue.state) : list nat :=
  match TaskQueue.loop s with
  | TaskQueue.Gather batch => fst <$> batch
  | _ => []
  end.

Definition boom : Py.exn := Py.Exception "RuntimeError" "boom".

(** [run] is called and selects its first batch. *)
Definition to_first_batch : list TaskQueue.label :=
  enqueue_five ++ [TaskQueue.CallRun; TaskQueue.Iterate].

(** The three coroutines of the batch run up to their [await]. *)
Definition start_three : list TaskQueue.label :=
  [TaskQueue.Start 0 (inr "x = 1") None;
   TaskQueue.Start 1 (inr "y = 2") None;
   TaskQueue.Start 2 (inr "z = 3") None].

Definition reply : Py.val := Py.Dict [("improvements", Py.List [])].

(** Two replies and one failure, then [gather] returns. *)
Definition settle_three : list TaskQueue.label :=
  [TaskQueue.Resume 1 (inr reply) None;
   TaskQueue.Resume 0 (inr reply) None;
   TaskQueue.Resume 2 (inl boom) None;
   TaskQueue.Settle].

End Scenario.

(** ** Invariants of the queue *)

Module Inv.

Import TaskQueue.

(** The digits and pads of an id hold no underscore. *)
Fixpoint no_underscore (s : string) : bool :=
  match s with
  | EmptyString => true
  | String c s' => negb (Ascii.eqb c "_") && no_underscore s'
  end.

(** Every record of the list was minted by [add_task]: the record at
    position [i] carries the sequence number [i] in its id. *)
Definition minted (l : list Task.t) : Prop :=
  forall i k, l !! i = Some k ->
    exists task_type now, Task.id k = mint_id task_type i now.

(** A coroutine of the batch and the record it works on. *)
Definition coroutine_ok (l : list Task.t) (x : nat * pc) : Prop :=
  exists k, l !! fst x = Some k /\
    match snd x with
    | Created => Task.status k = Task.pending
    | Suspended => Task.status k = Task.running
    | Finished => Task.is_terminal k = true
    end.

Definition none_running (l : list Task.t) : Prop :=
  Forall (fun k => Task.status k <> Task.running) l.

Definition all_terminal (l : list Task.t) (batch : list nat) : Prop :=
  forall i, i ∈ batch -> exists k, l !! i = Some k /\ Task.is_terminal k = true.

(** What holds of the records at each position of [run]. *)
Definition inv_on (p : phase) (l : list Task.t) : Prop :=
  match p with
  | Idle => none_running l
  | LoopHead batch => none_running l /\ all_terminal l batch
  | Gather batch =>
      NoDup batch.*1 /\ length batch <= 3
      /\ Forall (coroutine_ok l) batch
      /\ (forall i k, l !! i = Some k -> Task.status k = Task.running -> i ∈ batch.*1)
  end.

Definition inv (s : state) : Prop := inv_on (loop s) (tasks (queue s)).

(** The fields of a record that no code of the queue assigns. *)
Definition same_job (k k' : Task.t) : Prop :=
  Task.id k' = Task.id k /\ Task.type k' = Task.type k
  /\ Task.input_path k' = Task.input_path k
  /\ Task.created_at k' = Task.created_at k
  /\ Task.priority k' = Task.priority k.

(** While [run] waits in [gather] for [batch], the batch in the state is
    that one; afterwards its records are terminal. *)
Definition behind_barrier (batch : list nat) (s : state) : Prop :=
  (exists b, loop s = Gather b /\ b.*1 = batch)
  \/ all_terminal (tasks (queue s)) batch.

(** The labels that are slices of [run] and of its coroutines. *)
Definition is_run_label (l : label) : bool :=
  match l with
  | CallRun | Iterate | Start _ _ _ | Resume _ _ _ | Settle => true
  | Enqueue _ _ _ _ _ | Modified _ _ _ | Stop => false
  end.

End Inv.

(** ** The client: [class OpenRouterClient] (src/openrouter_client.py) *)

Module OpenRouterClient.

(** What the network did with the POST of [generate_code]: the session or
    the request raised, or a response came back with a status and a body
    that [response.json()] parses or not. *)
Inductive http : Type :=
| Raised (e : Py.exn)
| Responded (status : Z) (json : Py.exn + Py.val).

Inductive log : Type :=
| Warning (msg : string)
| Error (msg : string).

Record t : Type := mk {
  api_key : option string;
  base_url : string }.

(** [_get_api_key] returns [None]. *)
Definition _get_api_key : option string := None.

Definition __init__ : t :=
  {| api_key := _get_api_key; base_url := "https://openrouter.ai/api/v1" |}.

(** [not self.api_key] *)
Definition no_key (self : t) : bool :=
  match api_key self with
  | None => true
  | Some k => String.eqb k ""
  end.

Definition no_improvements : Py.val := Py.Dict [("improvements", Py.List [])].

(** [generate_code] (lines 17-40): the value returned and what was logged. *)
Definition generate_code (self : t) (prompt : string) (net : http)
    : Py.val * list log :=
  if no_key self then
    (no_improvements,
     [Warning "OpenRouter API key not configured, skipping AI improvements"])
  else
    match net with
    | Responded status body =>
        if (status =? 200)%Z then
          match body with
          | inr v => (v, [])
          | inl e => (no_improvements, [Error ("Connection error: " +:+ Py.str e)])
          end
        else
          (no_improvements, [Error ("API error: " +:+ TaskQueue.str_of_Z status)])
    | Raised e =>
        (no_improvements, [Error ("Connection error: " +:+ Py.str e)])
    end.

(** Reading an attribute the class does not define. *)
Definition missing (name : string) : Py.exn :=
  Py.Exception "AttributeError"
    ("'OpenRouterClient' object has no attribute '" +:+ name +:+ "'").

End OpenRouterClient.

(** ** One job from start to end, and [run] when no call suspends *)

Module Sequential.

Import TaskQueue.

Definition newline : string := String (ascii_of_nat 10) "".

(** [f"Improve this code:\n```python\n{code}\n```"] (line 57) *)
Definition prompt (code : string) : string :=
  "Improve this code:" +:+ newline +:+ "```python" +:+ newline +:+
  code +:+ newline +:+ "```".

(** The call that [process_task] awaits on [self.client], built by
    [OpenRouterClient()] in [TaskQueue.__init__]: [generate_code] for a
    code_improvement job; [suggest_tests] and [analyze_dependencies] are
    attributes the class does not have. *)
Definition client_call (task : Task.t) (read : Py.exn + string)
    (net : OpenRouterClient.http) : Py.exn + Py.val :=
  if String.eqb (Task.type task) "code_improvement" then
    match read with
    | inr code =>
        inr (OpenRouterClient.generate_code OpenRouterClient.__init__
               (prompt code) net).1
    | inl e => inl e          (* not reached: the coroutine ended at the read *)
    end
  else if String.eqb (Task.type task) "test_generation" then
    inl (OpenRouterClient.missing "suggest_tests")
  else
    inl (OpenRouterClient.missing "analyze_dependencies").

(** [process_task] with that client, both slices in a row; the events are
    those of the queue (what the client itself logs is the second component
    of [generate_code]). *)
Definition process_task (read : Py.exn + string) (net : OpenRouterClient.http)
    (write : option Py.exn) (task : Task.t) (dir : list (string * json.text))
    : Task.t * list (string * json.text) * list event :=
  let '(task1, p, dir1, evs1) := process_task_begin read write task dir in
  match p with
  | Suspended =>
      let '(task2, dir2, evs2) :=
        process_task_resume (client_call task1 read net) write task1 dir1 in
      (task2, dir2, evs1 ++ evs2)
  | _ => (task1, dir1, evs1)
  end.

(** What the world answers to the coroutine of one record. *)
Record answers : Type := mkAnswers {
  read : Py.exn + string;
  reply : Py.exn + Py.val;
  write : option Py.exn }.

(** The coroutine of record [i] run to its end: its first slice and, if
    it suspended, the slice after the awaited call. *)
Definition run_coroutine (a : answers) (i : nat) (s : state) : option state :=
  match step (Start i (read a) (write a)) s with
  | Some s1 =>
      match loop s1 with
      | Gather batch =>
          match pc_of i batch with
          | Some Suspended => step (Resume i (reply a) (write a)) s1
          | _ => Some s1
          end
      | _ => None
      end
  | None => None
  end.

(** [asyncio.gather] over the batch, one coroutine after the other. *)
Fixpoint gather (o : nat -> answers) (batch : list nat) (s : state)
    : option state :=
  match batch with
  | [] => Some s
  | i :: rest =>
      match run_coroutine (o i) i s with
      | Some s1 => gather o rest s1
      | None => None
      end
  end.

(** The [while] loop of [run], at most [fuel] iterations. *)
Fixpoint run_loop (fuel : nat) (o : nat -> answers) (s : state) : option state :=
  match fuel with
  | 0 => None
  | S fuel' =>
      match step Iterate s with
      | Some s1 =>
          match loop s1 with
          | Idle => Some s1
          | Gather batch =>
              match gather o batch.*1 s1 with
              | Some s2 =>
                  match step Settle s2 with
                  | Some s3 => run_loop fuel' o s3
                  | None => None
                  end
              | None => None
              end
          | LoopHead _ => None
          end
      | None => None
      end
  end.

(** [run] (lines 90-108). *)
Definition run (fuel : nat) (o : nat -> answers) (s : state) : option state :=
  match step CallRun s with
  | Some s1 => run_loop fuel o s1
  | None => None
  end.

End Sequential.

(** ** Histories of a queue *)

Module History.

Import TaskQueue.

(** A queue right after [TaskQueue()]: no record, [run] not called. *)
Definition boot (s : state) : Prop :=
  loop s = Idle /\ tasks (queue s) = [].

(** pending, then running, then completed or failed. *)
Definition rank (st : Task.Status) : nat :=
  match st with
  | Task.pending => 0
  | Task.running => 1
  | Task.completed | Task.failed => 2
  end.

(** The row [add_task] wrote for a record: status pending, result NULL. *)
Definition row_as_enqueued (k : Task.t) : Storage.Row :=
  Storage.row_of_task
    (Task.new (Task.created_at k) (Task.id k) (Task.type k)
       (Task.input_path k) (Task.priority k)).

(** The file [_save_result] writes for a record. *)
Definition result_file (k : Task.t) : string * json.text :=
  (output_file k, json.dumps (result_document k)).

(** What a step can be: it leaves the records, the store and the result
    files alone; or it is an [add_task] that went through; or it is a slice
    of the coroutine of one record. *)
Definition quiet (s s' : state) : Prop :=
  tasks (queue s') = tasks (queue s) /\ results s' = results s /\ db s' = db s.

Definition appended (s s' : state) : Prop :=
  exists ty path prio now,
    let k := Task.new (class_created_at s)
               (mint_id ty (length (tasks (queue s))) now) ty path prio in
    tasks (queue s') = tasks (queue s) ++ [k]
    /\ results s' = results s
    /\ db s' = Storage.insert_or_replace (Storage.row_of_task k) (db s).

Definition coroutine_slice (s s' : state) : Prop :=
  exists i batch p0 p task task',
    loop s = Gather batch /\ pc_of i batch = Some p0
    /\ loop s' = Gather (set_pc i p batch)
    /\ tasks (queue s) !! i = Some task
    /\ tasks (queue s') = <[i := task']> (tasks (queue s))
    /\ db s' = db s
    /\ Inv.same_job task task'
    /\ match p with
       | Created => False
       | Suspended => p0 = Created /\ Task.status task' = Task.running
       | Finished => (p0 = Created \/ p0 = Suspended)
                     /\ Task.is_terminal task' = true
       end
    /\ ((Task.status task' = Task.completed
         /\ results s' = write_file (output_file task')
                           (json.dumps (result_document task')) (results s))
        \/ (Task.status task' <> Task.completed /\ results s' = results s)).

(** The rows of the queued records are in the table. *)
Definition rows_kept (s : state) : Prop :=
  Inv.minted (tasks (queue s))
  /\ forall i k, tasks (queue s) !! i = Some k -> row_as_enqueued k ∈ db s.

(** The result files of the completed records are in [results]. *)
Definition files_kept (s : state) : Prop :=
  Inv.minted (tasks (queue s))
  /\ forall i k, tasks (queue s) !! i = Some k ->
       Task.status k = Task.completed -> result_file k ∈ results s.

(** A progress update that reports a settled record. *)
Definition settled_update (e : event) : Prop :=
  match e with
  | ProgressUpdate _ st msg =>
      (st = Task.completed /\ msg = "Completed")
      \/ (st = Task.failed /\ msg = "Failed")
  | _ => True
  end.



(** The coroutine a label is a slice of. *)
Definition coroutine_of (l : label) : option nat :=
  match l with
  | Start i _ _ | Resume i _ _ => Some i
  | _ => None
  end.

(** The exception that the [except] block of [process_task] (lines 69-72)
    catches in a slice, if any: the read of the input file failed, the
    awaited call on the client raised, or the write of the result file
    failed. *)
Definition caught (l : label) (task : Task.t) : option Py.exn :=
  match l with
  | Start _ read write =>
      if calls_client task then
        (if reads_file task then
           match read with inl e => Some e | inr _ => None end
         else None)
      else write
  | Resume _ reply write =>
      match reply with
      | inl e => Some e
      | inr _ => write
      end
  | _ => None
  end.

(** The record after each assignment of a slice to [task.status], in source
    order: line 52, then line 66 (with the reply of the client stored by
    lines 56-64), then lines 70-71 when the [except] block runs. *)
Definition writes (l : label) (task : Task.t) : list Task.t :=
  match l with
  | Start _ read write =>
      let task1 := Task.set_status Task.running task in
      task1 ::
      (if calls_client task1 then
         match reads_file task1, read with
         | true, inl e => [(on_exception e task1).1]
         | _, _ => []
         end
       else
         let task2 := Task.set_status Task.completed task1 in
         task2 ::
         match write with
         | Some e => [(on_exception e task2).1]
         | None => []
         end)
  | Resume _ reply write =>
      match reply with
      | inl e => [(on_exception e task).1]
      | inr r =>
          let task2 := Task.set_status Task.completed (Task.set_result r task) in
          task2 ::
          match write with
          | Some e => [(on_exception e task2).1]
          | None => []
          end
      end
  | _ => []
  end.

(** Each assignment moves the status to a later rank, or replaces
    completed by failed. *)
Fixpoint forward (st : Task.Status) (ws : list Task.Status) : Prop :=
  match ws with
  | [] => True
  | w :: ws' =>
      (rank st < rank w \/ (st = Task.completed /\ w = Task.failed))
      /\ forward w ws'
  end.

(** The events of the watcher for a list of (clock, path) pairs, the store
    answering every write. *)
Definition modifications (events : list (datetime.t * string)) : list label :=
  (fun e => Modified e.1 None e.2) <$> events.

(** Answers for the five jobs: every file is read, the client replies
    except to record 2, where it raises, and every result file is written. *)
Definition sample_answers (i : nat) : Sequential.answers :=
  {| Sequential.read := inr "x = 1";
     Sequential.reply := if i =? 2 then inl (Py.Exception "RuntimeError" "boom")
                         else inr (Py.Dict [("improvements", Py.List [])]);
     Sequential.write := None |}.

(** The [run] command of scripts/run_tasks.py (lines 26-34):
    [queue = TaskQueue(); await queue.run()]. *)
Definition cli_run (t0 : datetime.t) (db0 : Storage.table) : option state :=
  exec [CallRun; Iterate] (fresh t0 db0).

End History.

(** * Properties *)

(** ** The store *)

Section StorageFacts.

Import Storage.

Lemma insert_desc_perm (r : Row) (l : list Row) : insert_desc r l ≡ₚ r :: l.
Proof.
  induction l as [|x l IH]; simpl; [done|].
  destruct (priority x <=? priority r)%Z; [done|].
  by rewrite IH, Permutation_swap.
Qed.

Lemma order_by_priority_desc_perm (l : list Row) : order_by_priority_desc l ≡ₚ l.
Proof.
  induction l as [|x l IH]; simpl; [done|].
  by rewrite insert_desc_perm, IH.
Qed.

Lemma insert_desc_sorted (r : Row) (l : list Row) :
  StronglySorted Contract.by_priority l ->
  StronglySorted Contract.by_priority (insert_desc r l).
Proof.
  induction 1 as [|x l Hl IH Hx]; simpl.
  - repeat constructor.
  - destruct (priority x <=? priority r)%Z eqn:E.
    + apply Z.leb_le in E.
      constructor; [by constructor|].
      constructor; [done|].
      eapply Forall_impl; [exact Hx|].
      unfold Contract.by_priority. intros y ?. lia.
    + apply Z.leb_gt in E.
      constructor; [done|].
      rewrite insert_desc_perm.
      constructor; [unfold Contract.by_priority; lia | done].
Qed.

Lemma order_by_priority_desc_sorted (l : list Row) :
  StronglySorted Contract.by_priority (order_by_priority_desc l).
Proof.
  induction l; simpl; [constructor | by apply insert_desc_sorted].
Qed.

(** Rows of one priority keep their relative position. *)
Lemma insert_desc_stable (p : Z) (r : Row) (l : list Row) :
  filter (fun x => priority x = p) (insert_desc r l)
  = filter (fun x => priority x = p) (r :: l).
Proof.
  induction l as [|x l IH]; simpl; [done|].
  destruct (priority x <=? priority r)%Z eqn:E; [done|].
  apply Z.leb_gt in E.
  rewrite (filter_cons _ x (insert_desc r l)), IH.
  rewrite !(filter_cons _ r), (filter_cons _ x l).
  repeat case_decide; (done || lia).
Qed.

Lemma order_by_priority_desc_stable (p : Z) (l : list Row) :
  filter (fun x => priority x = p) (order_by_priority_desc l)
  = filter (fun x => priority x = p) l.
Proof.
  induction l as [|x l IH]; simpl; [done|].
  rewrite insert_desc_stable, !(filter_cons _ x), IH. done.
Qed.

(** After [INSERT OR REPLACE] the key [id r] names exactly the row [r]. *)
Lemma insert_or_replace_lookup (r r' : Row) (db : table) :
  r' ∈ insert_or_replace r db -> id r' = id r -> r' = r.
Proof.
  unfold insert_or_replace. rewrite elem_of_app, list_elem_of_filter.
  intros [[Hne _]|Hin] Heq; [done|].
  by apply list_elem_of_singleton in Hin.
Qed.

Lemma insert_or_replace_elem (r : Row) (db : table) : r ∈ insert_or_replace r db.
Proof.
  unfold insert_or_replace. apply elem_of_app. right.
  by apply list_elem_of_singleton.
Qed.

End StorageFacts.

(** The query itself does not look at [created_at].  On a table written
    through [save_task] directly, out of creation order ([late] saved before
    [early], both pending with priority 5), [get_pending_tasks] returns the
    rows in the order of the table, the later [created_at] first.  No
    sequence of [add_task] calls builds such a table. *)
Lemma get_pending_tasks_ignores_created_at :
  exists db1 db2,
    Storage.save_task None [] Scenario.late = inr db1
    /\ Storage.save_task None db1 Scenario.early = inr db2
    /\ Storage.get_pending_tasks db2
       = [Storage.row_of_task Scenario.late; Storage.row_of_task Scenario.early]
    /\ ~ Contract.pending_in_canonical_order db2.
Proof.
  eexists _, _. split; [reflexivity|]. split; [reflexivity|].
  split; [vm_compute; reflexivity|].
  intros [_ Hsorted].
  assert (Hout : Storage.get_pending_tasks
            (Storage.insert_or_replace (Storage.row_of_task Scenario.early)
               (Storage.insert_or_replace (Storage.row_of_task Scenario.late) []))
          = [Storage.row_of_task Scenario.late; Storage.row_of_task Scenario.early])
    by (vm_compute; reflexivity).
  rewrite Hout in Hsorted.
  apply StronglySorted_inv in Hsorted as [_ Hall].
  apply Forall_cons in Hall as [[Hlt|[_ Hleb]] _].
  - vm_compute in Hlt. discriminate.
  - vm_compute in Hleb. discriminate.
Qed.

(** For every content of the table, [get_pending_tasks] returns exactly the
    rows whose status is pending, ordered by priority descending; rows of
    equal priority are in the order of the table (the order of their last
    save). *)
Theorem get_pending_tasks_by_priority (db : Storage.table) :
  Storage.get_pending_tasks db ≡ₚ filter (fun r => Storage.is_pending r = true) db
  /\ StronglySorted Contract.by_priority (Storage.get_pending_tasks db)
  /\ forall p : Z,
       filter (fun r => Storage.priority r = p) (Storage.get_pending_tasks db)
       = filter (fun r => Storage.priority r = p)
           (filter (fun r => Storage.is_pending r = true) db).
Proof.
  unfold Storage.get_pending_tasks. split; [|split].
  - apply order_by_priority_desc_perm.
  - apply order_by_priority_desc_sorted.
  - intros p. apply order_by_priority_desc_stable.
Qed.

(** C10: whenever the result of a task is falsy ([None] and the empty dict
    are, as [Py.truthy] computes), [save_task] goes through and the row it leaves under the task's id has
    NULL in the result column; the row of a job whose runner returned the
    empty dict is the row the same job would have with no result at all. *)
Theorem save_task_falsy_result_is_null (db : Storage.table) (task : Task.t) :
  Py.truthy (Task.result task) = false ->
  exists db', Storage.save_task None db task = inr db'
    /\ (exists r, r ∈ db' /\ Storage.id r = Task.id task)
    /\ (forall r, r ∈ db' -> Storage.id r = Task.id task -> Storage.result r = None)
    /\ Storage.save_task None db (Task.set_result (Py.Dict []) task)
       = Storage.save_task None db (Task.set_result Py.None_ task).
Proof.
  intros Hfalsy. eexists. split; [reflexivity|].
  assert (Hnull : Storage.result (Storage.row_of_task task) = None).
  { unfold Storage.row_of_task; simpl. by rewrite Hfalsy. }
  split; [|split].
  - exists (Storage.row_of_task task). split; [apply insert_or_replace_elem | done].
  - intros r Hin Hid.
    by rewrite (insert_or_replace_lookup (Storage.row_of_task task) r db Hin Hid).
  - reflexivity.
Qed.

(** C10 at a completed job whose runner returned the empty dict. *)
Lemma save_task_falsy_result_is_null_witness :
  exists db', Storage.save_task None []
                (Task.set_result (Py.Dict []) (Task.set_status Task.completed Scenario.early))
              = inr db'
    /\ (exists r, r ∈ db' /\ Storage.id r = "code_improvement_0_20240101_120000")
    /\ (forall r, r ∈ db' -> Storage.id r = "code_improvement_0_20240101_120000" ->
          Storage.result r = None)
    /\ Storage.save_task None []
         (Task.set_result (Py.Dict []) (Task.set_status Task.completed Scenario.early))
       = Storage.save_task None []
           (Task.set_result Py.None_ (Task.set_status Task.completed Scenario.early)).
Proof.
  apply (save_task_falsy_result_is_null []
           (Task.set_result (Py.Dict []) (Task.set_status Task.completed Scenario.early))).
  reflexivity.
Defined.

(** ** Identifiers *)

Section IdFacts.

Import TaskQueue Inv.

Lemma append_nil (s : string) : "" +:+ s = s.
Proof. reflexivity. Qed.

Lemma append_cons (c : ascii) (a s : string) : String c a +:+ s = String c (a +:+ s).
Proof. reflexivity. Qed.

Lemma append_assoc (a b c : string) : (a +:+ b) +:+ c = a +:+ (b +:+ c).
Proof. induction a as [|x a IH]; [done|]. by rewrite !append_cons, IH. Qed.

Lemma no_underscore_app (a b : string) :
  no_underscore (a +:+ b) = no_underscore a && no_underscore b.
Proof.
  induction a as [|x a IH]; [done|].
  rewrite append_cons. simpl. by rewrite IH, andb_assoc.
Qed.

Lemma no_underscore_uint (d : Decimal.uint) :
  no_underscore (NilEmpty.string_of_uint d) = true.
Proof. induction d; simpl; done. Qed.

Lemma no_underscore_pad (w n : nat) : no_underscore (datetime.pad w n) = true.
Proof.
  unfold datetime.pad, datetime.zfill.
  induction (w - String.length (Py.str_of_nat n)) as [|m IH]; simpl; [|done].
  apply no_underscore_uint.
Qed.

(** A string is cut in one way only at its last underscore. *)
Lemma split_last_underscore (a a' d d' : string) :
  no_underscore d = true -> no_underscore d' = true ->
  a +:+ "_" +:+ d = a' +:+ "_" +:+ d' -> a = a' /\ d = d'.
Proof.
  intros Hd Hd'. revert a'.
  induction a as [|c a IH]; intros [|c' a']; rewrite ?append_cons, ?append_nil.
  - by intros [= ->].
  - intros [= <- ->]. rewrite no_underscore_app in Hd. simpl in Hd.
    by rewrite andb_false_r in Hd.
  - intros [= -> <-]. rewrite no_underscore_app in Hd'. simpl in Hd'.
    by rewrite andb_false_r in Hd'.
  - intros [= -> Heq]. by destruct (IH _ Heq) as [-> ->].
Qed.

Lemma str_of_nat_inj (n n' : nat) : Py.str_of_nat n = Py.str_of_nat n' -> n = n'.
Proof.
  unfold Py.str_of_nat. intros H. apply Unsigned.to_uint_inj.
  assert (Some (Nat.to_uint n) = Some (Nat.to_uint n')) as [= ->]; [|done].
  by rewrite <- !NilEmpty.usu, H.
Qed.

Lemma no_underscore_date (dt : datetime.t) :
  no_underscore (datetime.pad 4 (datetime.year dt) +:+
                 datetime.pad 2 (datetime.month dt) +:+
                 datetime.pad 2 (datetime.day dt)) = true.
Proof. by rewrite !no_underscore_app, !no_underscore_pad. Qed.

Lemma no_underscore_time (dt : datetime.t) :
  no_underscore (datetime.pad 2 (datetime.hour dt) +:+
                 datetime.pad 2 (datetime.minute dt) +:+
                 datetime.pad 2 (datetime.second dt)) = true.
Proof. by rewrite !no_underscore_app, !no_underscore_pad. Qed.

(** The id determines the type and the sequence number it was minted from. *)
Lemma mint_id_inj (ty ty' : string) (n n' : nat) (now now' : datetime.t) :
  mint_id ty n now = mint_id ty' n' now' -> ty = ty' /\ n = n'.
Proof.
  unfold mint_id, datetime.strftime. intros H.
  pose proof (no_underscore_date now) as Hd.
  pose proof (no_underscore_date now') as Hd'.
  pose proof (no_underscore_time now) as Ht.
  pose proof (no_underscore_time now') as Ht'.
  revert H Hd Hd' Ht Ht'.
  generalize (datetime.pad 2 (datetime.hour now) +:+
              datetime.pad 2 (datetime.minute now) +:+
              datetime.pad 2 (datetime.second now)).
  generalize (datetime.pad 2 (datetime.hour now') +:+
              datetime.pad 2 (datetime.minute now') +:+
              datetime.pad 2 (datetime.second now')).
  intros time' time H Hd Hd' Ht Ht'.
  assert (H1 : (ty +:+ "_" +:+ Py.str_of_nat n +:+ "_" +:+
                (datetime.pad 4 (datetime.year now) +:+
                 datetime.pad 2 (datetime.month now) +:+
                 datetime.pad 2 (datetime.day now))) +:+ "_" +:+ time
             = (ty' +:+ "_" +:+ Py.str_of_nat n' +:+ "_" +:+
                (datetime.pad 4 (datetime.year now') +:+
                 datetime.pad 2 (datetime.month now') +:+
                 datetime.pad 2 (datetime.day now'))) +:+ "_" +:+ time').
  { rewrite !append_assoc. exact H. }
  apply split_last_underscore in H1 as [H2 _]; [|done..].
  revert H2 Hd Hd'.
  generalize (datetime.pad 4 (datetime.year now) +:+
              datetime.pad 2 (datetime.month now) +:+
              datetime.pad 2 (datetime.day now)).
  generalize (datetime.pad 4 (datetime.year now') +:+
              datetime.pad 2 (datetime.month now') +:+
              datetime.pad 2 (datetime.day now')).
  intros date' date H2 Hd Hd'.
  assert (H3 : (ty +:+ "_" +:+ Py.str_of_nat n) +:+ "_" +:+ date
             = (ty' +:+ "_" +:+ Py.str_of_nat n') +:+ "_" +:+ date').
  { rewrite !append_assoc. exact H2. }
  apply split_last_underscore in H3 as [H4 _]; [|done..].
  apply split_last_underscore in H4 as [-> H5]; [|apply no_underscore_uint..].
  split; [done|]. by apply str_of_nat_inj.
Qed.

End IdFacts.

(** ** [add_task] and the watcher *)

Section AddTaskFacts.

Import TaskQueue Inv.

(** What a successful [add_task] did. *)
Lemma add_task_inr now fault ty path prio s task_id s' :
  add_task now fault ty path prio s = (inr task_id, s') ->
  fault = None /\ is_Some (storage (queue s))
  /\ task_id = mint_id ty (length (tasks (queue s))) now
  /\ tasks (queue s')
     = tasks (queue s) ++ [Task.new (class_created_at s) task_id ty path prio]
  /\ db s' = Storage.insert_or_replace
               (Storage.row_of_task
                  (Task.new (class_created_at s) task_id ty path prio)) (db s)
  /\ loop s' = loop s /\ results s' = results s
  /\ running (queue s') = running (queue s)
  /\ class_created_at s' = class_created_at s.
Proof.
  unfold add_task. destruct (storage (queue s)) eqn:Hst; [|done].
  destruct fault; simpl; [done|].
  intros [= <- <-]. simpl. eauto 10.
Qed.

(** A failed [add_task] left the queue and the table as they were. *)
Lemma add_task_inl now fault ty path prio s e s' :
  add_task now fault ty path prio s = (inl e, s') ->
  queue s' = queue s /\ db s' = db s /\ loop s' = loop s
  /\ results s' = results s /\ class_created_at s' = class_created_at s.
Proof.
  unfold add_task. destruct (storage (queue s)); [|by intros [= <- <-]].
  destruct fault; simpl; [|done].
  by intros [= <- <-].
Qed.

(** Whatever the outcome, [add_task] appends at most one pending record. *)
Lemma add_task_tasks now fault ty path prio s :
  let s' := (add_task now fault ty path prio s).2 in
  loop s' = loop s
  /\ (tasks (queue s') = tasks (queue s)
      \/ exists k, tasks (queue s') = tasks (queue s) ++ [k]
                   /\ Task.status k = Task.pending).
Proof.
  destruct (add_task now fault ty path prio s) as [[e|task_id] s'] eqn:E; simpl.
  - apply add_task_inl in E as (-> & _ & -> & _). eauto.
  - apply add_task_inr in E as (_ & _ & _ & -> & _ & -> & _). eauto.
Qed.

Lemma on_modified_tasks now fault src_path s :
  let s' := (on_modified now fault src_path s).2 in
  loop s' = loop s
  /\ (tasks (queue s') = tasks (queue s)
      \/ exists k, tasks (queue s') = tasks (queue s) ++ [k]
                   /\ Task.status k = Task.pending).
Proof.
  unfold on_modified. destruct (Py.endswith src_path ".py"); [|simpl; eauto].
  pose proof (add_task_tasks now fault "code_improvement" (pathlib.Path src_path) 5 s)
    as H.
  by destruct (add_task now fault "code_improvement" (pathlib.Path src_path) 5 s)
    as [[?|?] ?].
Qed.

(** The id minted for position [length l] is none of the ids in [l]. *)
Lemma mint_id_fresh (l : list Task.t) ty now k :
  minted l -> k ∈ l -> Task.id k <> mint_id ty (length l) now.
Proof.
  intros Hm Hin Heq.
  apply list_elem_of_lookup in Hin as [i Hi].
  destruct (Hm i k Hi) as (ty' & now' & Hid).
  rewrite Hid in Heq. apply mint_id_inj in Heq as [_ ->].
  apply lookup_lt_Some in Hi. lia.
Qed.

Lemma minted_snoc (l : list Task.t) t0 ty path prio now :
  minted l ->
  minted (l ++ [Task.new t0 (mint_id ty (length l) now) ty path prio]).
Proof.
  intros Hm i k Hi.
  apply lookup_snoc_Some in Hi as [[_ Hi]|[-> <-]]; [by apply Hm|].
  by exists ty, now.
Qed.

(** With a store attached and a store write that goes through, the
    watcher's [on_modified] leaves a pending row of kind code_improvement
    and priority 5 for the event path in [get_pending_tasks]. *)
Lemma on_modified_enqueues now src_path s h :
  storage (queue s) = Some h ->
  Py.endswith src_path ".py" = true ->
  exists task_id s' r,
    on_modified now None src_path s = (inr (Some task_id), s')
    /\ r ∈ Storage.get_pending_tasks (db s')
    /\ Storage.id r = task_id
    /\ Storage.type r = "code_improvement"
    /\ Storage.input_path r = pathlib.Path src_path
    /\ Storage.priority r = 5%Z
    /\ Storage.status r = Task.pending.
Proof.
  intros Hst Hpy. unfold on_modified, add_task. rewrite Hpy, Hst. simpl.
  eexists _, _, (Storage.row_of_task
                   (Task.new (class_created_at s)
                      (mint_id "code_improvement" (length (tasks (queue s))) now)
                      "code_improvement" (pathlib.Path src_path) 5)).
  split; [reflexivity|]. simpl.
  split; [|done].
  unfold Storage.get_pending_tasks.
  rewrite order_by_priority_desc_perm.
  apply list_elem_of_filter. split; [done|].
  apply insert_or_replace_elem.
Qed.

End AddTaskFacts.

(** C1 (counterexample): the queue has a store and the store write raises.  The
    error reaches the caller, and the in-memory collection is still empty:
    the record was not queued. *)
Lemma add_task_failure_leaves_queue_unchanged :
  exists e s',
    TaskQueue.add_task Scenario.noon (Some "disk I/O error") "code_improvement" "a.py" 5
      (TaskQueue.fresh_with_storage Scenario.class_time []) = (inl e, s')
    /\ TaskQueue.tasks (TaskQueue.queue s') = []
    /\ ~ Contract.queued_despite_failure Scenario.noon (Some "disk I/O error")
           "code_improvement" "a.py" 5
           (TaskQueue.fresh_with_storage Scenario.class_time []).
Proof.
  eexists _, _. split; [reflexivity|]. split; [reflexivity|].
  intros H. destruct (H _ _ eq_refl) as (task & Hin & _).
  simpl in Hin. by apply elem_of_nil in Hin.
Qed.

(** C1 (amended): on a queue that has a store, [add_task] builds a record with
    the id minted from the type, the length of the queue and the clock,
    with status pending; when the store write goes through, the row is in
    the table, the record is appended to [tasks], the id is returned and is
    the id of no record queued before; when the store write raises, the
    exception reaches the caller and neither [tasks] nor the table has
    changed. *)
Theorem add_task_saves_then_appends now fault ty path prio s h :
  TaskQueue.storage (TaskQueue.queue s) = Some h ->
  Inv.minted (TaskQueue.tasks (TaskQueue.queue s)) ->
  let task_id := TaskQueue.mint_id ty (length (TaskQueue.tasks (TaskQueue.queue s))) now in
  let task := Task.new (TaskQueue.class_created_at s) task_id ty path prio in
  Task.status task = Task.pending
  /\ match fault with
     | None =>
         exists s', TaskQueue.add_task now fault ty path prio s = (inr task_id, s')
           /\ TaskQueue.tasks (TaskQueue.queue s') = TaskQueue.tasks (TaskQueue.queue s) ++ [task]
           /\ Storage.row_of_task task ∈ TaskQueue.db s'
           /\ (forall k, k ∈ TaskQueue.tasks (TaskQueue.queue s) -> Task.id k <> task_id)
           /\ Inv.minted (TaskQueue.tasks (TaskQueue.queue s'))
     | Some msg =>
         exists e s', TaskQueue.add_task now fault ty path prio s = (inl e, s')
           /\ Py.str e = msg
           /\ TaskQueue.tasks (TaskQueue.queue s') = TaskQueue.tasks (TaskQueue.queue s)
           /\ TaskQueue.db s' = TaskQueue.db s
     end.
Proof.
  intros Hst Hm task_id task. split; [done|].
  unfold TaskQueue.add_task. rewrite Hst. destruct fault as [msg|]; simpl.
  - eexists _, _. split; [reflexivity|]. done.
  - eexists. split; [reflexivity|]. simpl.
    split; [done|]. split; [apply insert_or_replace_elem|].
    split; [intros k Hk; by apply mint_id_fresh | by apply minted_snoc].
Qed.

(** C1 (amended) at the first [add_task] on an empty queue with a store. *)
Lemma add_task_saves_then_appends_witness :
  Task.status (Task.new Scenario.class_time
                 (TaskQueue.mint_id "code_improvement" 0 Scenario.noon)
                 "code_improvement" "a.py" 5) = Task.pending
  /\ exists s',
       TaskQueue.add_task Scenario.noon None "code_improvement" "a.py" 5
         (TaskQueue.fresh_with_storage Scenario.class_time [])
       = (inr (TaskQueue.mint_id "code_improvement" 0 Scenario.noon), s')
       /\ TaskQueue.tasks (TaskQueue.queue s')
          = [] ++ [Task.new Scenario.class_time
                     (TaskQueue.mint_id "code_improvement" 0 Scenario.noon)
                     "code_improvement" "a.py" 5]
       /\ Storage.row_of_task
            (Task.new Scenario.class_time
               (TaskQueue.mint_id "code_improvement" 0 Scenario.noon)
               "code_improvement" "a.py" 5) ∈ TaskQueue.db s'
       /\ (forall k, k ∈ [] ->
             Task.id k <> TaskQueue.mint_id "code_improvement" 0 Scenario.noon)
       /\ Inv.minted (TaskQueue.tasks (TaskQueue.queue s')).
Proof.
  apply (add_task_saves_then_appends Scenario.noon None "code_improvement" "a.py" 5
           (TaskQueue.fresh_with_storage Scenario.class_time [])
           TaskQueue.Storage_handle).
  - reflexivity.
  - intros i k Hi. simpl in Hi. by rewrite lookup_nil in Hi.
Defined.

(** ** The loop [run] and its coroutines *)

Section RunFacts.

Import TaskQueue Inv.

Lemma terminal_not_running (k : Task.t) :
  Task.is_terminal k = true -> Task.status k <> Task.running.
Proof. unfold Task.is_terminal. by destruct (Task.status k). Qed.

Lemma pending_not_running (k : Task.t) :
  Task.status k = Task.pending -> Task.status k <> Task.running.
Proof. by intros ->. Qed.

(** *** The batch: a list of coroutines *)

Lemma pc_of_elem (i : nat) (p : pc) (batch : list (nat * pc)) :
  pc_of i batch = Some p -> (i, p) ∈ batch.
Proof.
  unfold pc_of. induction batch as [|[j q] batch IH]; simpl; [done|].
  destruct (j =? i) eqn:E; simpl.
  - apply Nat.eqb_eq in E as ->. intros [= ->]. left.
  - intros H. right. by apply IH.
Qed.

Lemma pc_of_elem_fst (i : nat) (p : pc) (batch : list (nat * pc)) :
  pc_of i batch = Some p -> i ∈ batch.*1.
Proof.
  intros H. apply pc_of_elem in H.
  apply list_elem_of_fmap. by exists (i, p).
Qed.

Lemma set_pc_fst (i : nat) (p : pc) (batch : list (nat * pc)) :
  (set_pc i p batch).*1 = batch.*1.
Proof.
  unfold set_pc. induction batch as [|[j q] batch IH]; csimpl; [done|].
  rewrite IH. f_equal. destruct (j =? i) eqn:E; simpl; [|done].
  by apply Nat.eqb_eq in E.
Qed.

Lemma set_pc_elem (i : nat) (p : pc) (batch : list (nat * pc)) (x : nat * pc) :
  x ∈ set_pc i p batch -> x = (i, p) \/ (fst x <> i /\ x ∈ batch).
Proof.
  unfold set_pc. intros H. apply list_elem_of_fmap in H as ([j q] & -> & Hin).
  simpl. destruct (j =? i) eqn:E; [by left|].
  right. apply Nat.eqb_neq in E. done.
Qed.

Lemma pc_of_set_pc_ne (i j : nat) (p : pc) (batch : list (nat * pc)) :
  j <> i -> pc_of j (set_pc i p batch) = pc_of j batch.
Proof.
  intros Hne. unfold pc_of, set_pc.
  induction batch as [|[a q] batch IH]; simpl; [done|].
  destruct (a =? i) eqn:E; simpl.
  - apply Nat.eqb_eq in E as ->.
    destruct (i =? j) eqn:E'; [apply Nat.eqb_eq in E'; congruence | done].
  - destruct (a =? j); [done | apply IH].
Qed.

Lemma pc_of_set_pc_eq (i : nat) (p q : pc) (batch : list (nat * pc)) :
  pc_of i batch = Some q -> pc_of i (set_pc i p batch) = Some p.
Proof.
  unfold pc_of, set_pc.
  induction batch as [|[a r] batch IH]; simpl; [done|].
  destruct (a =? i) eqn:E; simpl.
  - by rewrite Nat.eqb_refl.
  - rewrite E. apply IH.
Qed.

Lemma all_finished_elem (batch : list (nat * pc)) (x : nat * pc) :
  all_finished batch = true -> x ∈ batch -> snd x = Finished.
Proof.
  unfold all_finished. rewrite forallb_forall. intros H Hin.
  apply list_elem_of_In in Hin. specialize (H x Hin). by destruct (snd x).
Qed.

(** *** Counting the running records *)

(** If the positions of the records that satisfy [P] all lie in a
    duplicate-free list [B], there are at most [length B] of them. *)
Lemma count_le_positions {A} (P : A -> Prop) `{!forall x, Decision (P x)}
    (l : list A) (B : list nat) :
  NoDup B -> (forall i x, l !! i = Some x -> P x -> i ∈ B) ->
  length (filter P l) <= length B.
Proof.
  revert B. induction l as [|x l IH]; intros B Hnd Hpos; simpl; [lia|].
  set (B' := pred <$> filter (fun i => i <> 0) B).
  assert (Hnd' : NoDup B').
  { apply NoDup_fmap_2_strong; [|by apply NoDup_filter].
    intros a b Ha Hb Hab.
    apply list_elem_of_filter in Ha as [Ha _].
    apply list_elem_of_filter in Hb as [Hb _]. lia. }
  assert (Hpos' : forall i y, l !! i = Some y -> P y -> i ∈ B').
  { intros i y Hi Hy. apply list_elem_of_fmap. exists (S i). split; [done|].
    apply list_elem_of_filter. split; [done|]. by apply (Hpos (S i) y). }
  specialize (IH B' Hnd' Hpos').
  assert (Hlen : length B' = length (filter (fun i => i <> 0) B))
    by (unfold B'; by rewrite length_fmap).
  pose proof (length_filter (fun i => i <> 0) B) as Hle.
  rewrite filter_cons. case_decide as HP; simpl; [|lia].
  assert (H0 : 0 ∈ B) by (by apply (Hpos 0 x)).
  assert (Hlt : length (filter (fun i => i <> 0) B) < length B)
    by (apply (length_filter_lt _ B 0 H0); auto).
  lia.
Qed.

Lemma none_running_count (l : list Task.t) :
  none_running l -> length (filter (fun k => Task.is_running k = true) l) = 0.
Proof.
  induction 1 as [|k l Hk _ IH]; [done|].
  rewrite filter_cons. case_decide as E; [|done].
  unfold Task.is_running in E. by destruct (Task.status k).
Qed.

Lemma inv_on_running_count (p : phase) (l : list Task.t) :
  inv_on p l -> length (filter (fun k => Task.is_running k = true) l) <= 3.
Proof.
  destruct p as [|b|batch]; simpl.
  - intros H. rewrite none_running_count; [lia | done].
  - intros [H _]. rewrite none_running_count; [lia | done].
  - intros (Hnd & Hlen & _ & Hin).
    etrans; [|exact Hlen]. rewrite <- (length_fmap fst batch).
    apply count_le_positions; [done|].
    intros i k Hi Hk. apply (Hin i k Hi).
    unfold Task.is_running in Hk. by destruct (Task.status k).
Qed.

End RunFacts.

Section Invariant.

Import TaskQueue Inv.

(** *** The slices of [process_task] *)

Lemma process_task_begin_pc read write task dir task' p dir' evs :
  process_task_begin read write task dir = (task', p, dir', evs) ->
  same_job task task'
  /\ match p with
     | Created => False
     | Suspended => Task.status task' = Task.running
     | Finished => Task.is_terminal task' = true
     end.
Proof.
  unfold process_task_begin, complete, _save_result, on_exception.
  destruct (calls_client (Task.set_status Task.running task)),
    (reads_file (Task.set_status Task.running task)), read, write; simpl;
    intros [= <- <- <- <-]; done.
Qed.

Lemma process_task_resume_terminal reply write task dir task' dir' evs :
  process_task_resume reply write task dir = (task', dir', evs) ->
  same_job task task' /\ Task.is_terminal task' = true.
Proof.
  unfold process_task_resume, complete, _save_result, on_exception.
  destruct reply, write; simpl; intros [= <- <- <-]; done.
Qed.

(** *** Preservation, position by position *)

Lemma none_running_snoc (l : list Task.t) (k : Task.t) :
  none_running l -> Task.status k = Task.pending -> none_running (l ++ [k]).
Proof.
  intros Hl Hk. apply Forall_app. split; [done|].
  apply Forall_singleton. by rewrite Hk.
Qed.

Lemma inv_on_snoc (p : phase) (l : list Task.t) (k : Task.t) :
  inv_on p l -> Task.status k = Task.pending -> inv_on p (l ++ [k]).
Proof.
  destruct p as [|b|batch]; simpl.
  - apply none_running_snoc.
  - intros [Hr Ht] Hk. split; [by apply none_running_snoc|].
    intros i Hi. destruct (Ht i Hi) as (k' & Hl & Hter).
    exists k'. split; [|done]. by apply lookup_app_l_Some.
  - intros (Hnd & Hlen & Hco & Hrun) Hk. repeat split; [done..| |].
    + eapply Forall_impl; [exact Hco|].
      intros x (k' & Hl & Hx). exists k'. split; [|done].
      by apply lookup_app_l_Some.
    + intros i k' Hi Hk'.
      apply lookup_snoc_Some in Hi as [[_ Hi]|[_ <-]]; [by eapply Hrun|].
      congruence.
Qed.

Lemma pending_tasks_elem (l : list Task.t) (i : nat) :
  i ∈ pending_tasks l <-> exists k, l !! i = Some k /\ Task.status k = Task.pending.
Proof.
  unfold pending_tasks. rewrite list_elem_of_filter, elem_of_seq. split.
  - intros [H _]. destruct (l !! i) as [k|]; [|done].
    exists k. split; [done|].
    simpl in H. unfold Task.is_pending in H. injection H as H.
    by destruct (Task.status k).
  - intros (k & Hk & Hst). rewrite Hk. simpl. unfold Task.is_pending.
    rewrite Hst. split; [done|]. apply lookup_lt_Some in Hk. lia.
Qed.

Lemma pending_tasks_NoDup (l : list Task.t) : NoDup (pending_tasks l).
Proof. apply NoDup_filter, NoDup_seq. Qed.

Lemma fst_created (b : list nat) : ((fun i => (i, Created)) <$> b).*1 = b.
Proof. induction b; csimpl; [done | by f_equal]. Qed.

Lemma inv_on_iterate (l : list Task.t) :
  none_running l ->
  inv_on (Gather ((fun i => (i, Created)) <$> take 3 (pending_tasks l))) l.
Proof.
  intros Hr. simpl. rewrite fst_created, length_fmap. repeat split.
  - eapply sublist_NoDup; [apply pending_tasks_NoDup | apply sublist_take].
  - rewrite length_take. lia.
  - apply Forall_fmap, Forall_forall. intros i Hi. simpl.
    apply elem_of_take in Hi as (j & Hj & _).
    apply list_elem_of_lookup_2 in Hj. by apply pending_tasks_elem in Hj.
  - intros i k Hi Hk. exfalso.
    unfold none_running in Hr. rewrite Forall_forall in Hr.
    apply (Hr k); [|done]. by eapply list_elem_of_lookup_2.
Qed.

Lemma inv_on_coroutine (batch : list (nat * pc)) (l : list Task.t)
    (i : nat) (p0 p : pc) (task' : Task.t) :
  inv_on (Gather batch) l ->
  pc_of i batch = Some p0 ->
  match p with
  | Created => False
  | Suspended => Task.status task' = Task.running
  | Finished => Task.is_terminal task' = true
  end ->
  inv_on (Gather (set_pc i p batch)) (<[i := task']> l).
Proof.
  simpl. intros (Hnd & Hlen & Hco & Hrun) Hpc Hp.
  rewrite set_pc_fst. unfold set_pc at 1. rewrite length_fmap.
  repeat split; [done..| |].
  - apply Forall_forall. intros x Hx.
    rewrite Forall_forall in Hco.
    apply set_pc_elem in Hx as [->|[Hne Hx]].
    + destruct (Hco _ (pc_of_elem _ _ _ Hpc)) as (k & Hk & _). simpl in Hk.
      exists task'. split; [|by destruct p].
      simpl. apply list_lookup_insert_eq. by eapply lookup_lt_Some.
    + destruct (Hco x Hx) as (k & Hk & Hst). exists k. split; [|done].
      by rewrite list_lookup_insert_ne.
  - intros j k Hj Hk. destruct (decide (j = i)) as [->|Hne].
    + by eapply pc_of_elem_fst.
    + rewrite list_lookup_insert_ne in Hj by done. by eapply Hrun.
Qed.

Lemma inv_on_settle (batch : list (nat * pc)) (l : list Task.t) :
  inv_on (Gather batch) l -> all_finished batch = true ->
  inv_on (LoopHead batch.*1) l.
Proof.
  simpl. intros (Hnd & Hlen & Hco & Hrun) Hfin.
  rewrite Forall_forall in Hco. split.
  - apply Forall_forall. intros k Hk Hst.
    apply list_elem_of_lookup in Hk as [i Hi].
    specialize (Hrun i k Hi Hst).
    apply list_elem_of_fmap in Hrun as (x & -> & Hx).
    destruct (Hco x Hx) as (k' & Hk' & Hp).
    rewrite (all_finished_elem batch x Hfin Hx) in Hp.
    assert (k' = k) as -> by congruence.
    by apply terminal_not_running in Hp.
  - intros i Hi. apply list_elem_of_fmap in Hi as (x & -> & Hx).
    destruct (Hco x Hx) as (k & Hk & Hp).
    rewrite (all_finished_elem batch x Hfin Hx) in Hp. eauto.
Qed.

Lemma inv_on_leave (batch : list nat) (l : list Task.t) :
  inv_on (LoopHead batch) l -> inv_on Idle l.
Proof. by intros [H _]. Qed.

(** *** Every step keeps the invariant *)

Lemma step_inv (l : label) (s s' : state) :
  step l s = Some s' -> inv s -> inv s'.
Proof.
  unfold inv, step. intros Hstep Hinv.
  destruct l; simpl in Hstep.
  - (* CallRun *)
    destruct (loop s); simplify_eq/=. split; [done|].
    intros i Hi. by apply elem_of_nil in Hi.
  - (* Iterate *)
    destruct (loop s) as [|b|]; [done| |done].
    destruct (running (queue s) && _); [|simplify_eq/=; by eapply inv_on_leave].
    destruct (pending_tasks (tasks (queue s))) as [|i0 rest] eqn:Hp;
      simplify_eq; [by eapply inv_on_leave|].
    change (inv_on (Gather ((fun i => (i, Created)) <$> take 3 (i0 :: rest)))
              (tasks (queue s))).
    rewrite <- Hp. apply inv_on_iterate. by destruct Hinv.
  - (* Start *)
    destruct (loop s) as [| |batch] eqn:Hloop; [done..|].
    destruct (pc_of i batch) as [[| |]|] eqn:Hpc; try done.
    destruct (tasks (queue s) !! i) as [task|] eqn:Hi; [|done].
    destruct (process_task_begin read write task (results s))
      as [[[task' p] dir] evs] eqn:Hb.
    simplify_eq/=. apply process_task_begin_pc in Hb as [_ Hp].
    by eapply inv_on_coroutine.
  - (* Resume *)
    destruct (loop s) as [| |batch] eqn:Hloop; [done..|].
    destruct (pc_of i batch) as [[| |]|] eqn:Hpc; try done.
    destruct (tasks (queue s) !! i) as [task|] eqn:Hi; [|done].
    destruct (process_task_resume reply write task (results s))
      as [[task' dir] evs] eqn:Hb.
    simplify_eq/=. apply process_task_resume_terminal in Hb as [_ Hp].
    by eapply (inv_on_coroutine _ _ _ _ Finished).
  - (* Settle *)
    destruct (loop s) as [| |batch] eqn:Hloop; [done..|].
    destruct (all_finished batch) eqn:Hfin; simplify_eq/=.
    by apply inv_on_settle.
  - (* Enqueue *)
    pose proof (add_task_tasks now fault task_type input_path priority s)
      as [Hl Ht].
    assert (s' = (add_task now fault task_type input_path priority s).2) as ->
      by (destruct (loop s); by simplify_eq/=).
    rewrite Hl. destruct Ht as [->|(k & -> & Hk)]; [done | by apply inv_on_snoc].
  - (* Modified *)
    pose proof (on_modified_tasks now fault src_path s) as [Hl Ht].
    assert (s' = (on_modified now fault src_path s).2) as ->
      by (destruct (loop s); by simplify_eq/=).
    rewrite Hl. destruct Ht as [->|(k & -> & Hk)]; [done | by apply inv_on_snoc].
  - (* Stop *)
    assert (s' = with_running false s) as ->
      by (destruct (loop s); by simplify_eq/=).
    done.
Qed.

Lemma initial_inv (s : state) : initial s -> inv s.
Proof. unfold initial, inv. by intros [-> H]. Qed.

Lemma exec_inv (ls : list label) (s s' : state) :
  exec ls s = Some s' -> inv s -> inv s'.
Proof.
  revert s. induction ls as [|l ls IH]; intros s; simpl.
  - by intros [= ->].
  - destruct (step l s) as [s1|] eqn:E; [|done].
    intros H Hinv. eapply IH; [done|]. by eapply step_inv.
Qed.

End Invariant.

Section Frame.

Import TaskQueue Inv.

(** *** What one step does to the records *)

(** A step of coroutine [i] replaces the record at [i], keeping its
    identity; any other step leaves the records alone or appends one
    pending record. *)
Lemma step_tasks (l : label) (s s' : state) :
  step l s = Some s' ->
  tasks (queue s') = tasks (queue s)
  \/ (exists k, tasks (queue s') = tasks (queue s) ++ [k]
                /\ Task.status k = Task.pending)
  \/ (exists i batch p0 task task',
        loop s = Gather batch /\ pc_of i batch = Some p0 /\ p0 <> Finished
        /\ tasks (queue s) !! i = Some task
        /\ tasks (queue s') = <[i := task']> (tasks (queue s))
        /\ same_job task task').
Proof.
  unfold step. intros Hstep. destruct l; simpl in Hstep.
  - destruct (loop s); simplify_eq/=. by left.
  - destruct (loop s) as [|b|]; [done| |done]. left.
    destruct (running (queue s) && _); [|by simplify_eq/=].
    destruct (pending_tasks (tasks (queue s))); by simplify_eq/=.
  - destruct (loop s) as [| |batch] eqn:Hloop; [done..|].
    destruct (pc_of i batch) as [[| |]|] eqn:Hpc; try done.
    destruct (tasks (queue s) !! i) as [task|] eqn:Hi; [|done].
    destruct (process_task_begin read write task (results s))
      as [[[task' p] dir] evs] eqn:Hb.
    simplify_eq/=. apply process_task_begin_pc in Hb as [Hsame _].
    right; right. by exists i, batch, Created, task, task'.
  - destruct (loop s) as [| |batch] eqn:Hloop; [done..|].
    destruct (pc_of i batch) as [[| |]|] eqn:Hpc; try done.
    destruct (tasks (queue s) !! i) as [task|] eqn:Hi; [|done].
    destruct (process_task_resume reply write task (results s))
      as [[task' dir] evs] eqn:Hb.
    simplify_eq/=. apply process_task_resume_terminal in Hb as [Hsame _].
    right; right. by exists i, batch, Suspended, task, task'.
  - destruct (loop s) as [| |batch]; [done..|].
    destruct (all_finished batch); simplify_eq/=. by left.
  - pose proof (add_task_tasks now fault task_type input_path priority s)
      as [_ Ht].
    assert (s' = (add_task now fault task_type input_path priority s).2) as ->
      by (destruct (loop s); by simplify_eq/=).
    destruct Ht as [?|?]; eauto.
  - pose proof (on_modified_tasks now fault src_path s) as [_ Ht].
    assert (s' = (on_modified now fault src_path s).2) as ->
      by (destruct (loop s); by simplify_eq/=).
    destruct Ht as [?|?]; eauto.
  - assert (s' = with_running false s) as ->
      by (destruct (loop s); by simplify_eq/=).
    by left.
Qed.

(** No step changes the id, type, path, creation time or priority of a
    record that is in the queue. *)
Lemma step_same_job (l : label) (s s' : state) (i : nat) (k : Task.t) :
  step l s = Some s' -> tasks (queue s) !! i = Some k ->
  exists k', tasks (queue s') !! i = Some k' /\ same_job k k'.
Proof.
  intros Hstep Hi.
  destruct (step_tasks l s s' Hstep)
    as [->|[(k0 & -> & _)|(j & batch & p0 & task & task' & _ & _ & _ & Hj & -> & Hsame)]].
  - by exists k.
  - exists k. split; [by apply lookup_app_l_Some | done].
  - destruct (decide (j = i)) as [->|Hne].
    + exists task'. split; [|congruence].
      apply list_lookup_insert_eq. by eapply lookup_lt_Some.
    + exists k. by rewrite list_lookup_insert_ne.
Qed.

(** A terminal record stays terminal: only a created or suspended
    coroutine writes a record, and its record is pending or running. *)
Lemma step_terminal_stable (l : label) (s s' : state) (i : nat) (k : Task.t) :
  inv s -> step l s = Some s' ->
  tasks (queue s) !! i = Some k -> Task.is_terminal k = true ->
  exists k', tasks (queue s') !! i = Some k' /\ Task.is_terminal k' = true.
Proof.
  intros Hinv Hstep Hi Hter.
  destruct (step_tasks l s s' Hstep)
    as [->|[(k0 & -> & _)|(j & batch & p0 & task & task' & Hloop & Hpc & Hp0 & Hj & -> & _)]].
  - by exists k.
  - exists k. split; [by apply lookup_app_l_Some | done].
  - destruct (decide (j = i)) as [->|Hne];
      [|exists k; by rewrite list_lookup_insert_ne].
    exfalso. unfold inv in Hinv. rewrite Hloop in Hinv.
    destruct Hinv as (_ & _ & Hco & _). rewrite Forall_forall in Hco.
    destruct (Hco _ (pc_of_elem _ _ _ Hpc)) as (k1 & Hk1 & Hst). simpl in *.
    assert (k1 = k) as -> by congruence.
    unfold Task.is_terminal in Hter.
    destruct p0; [| |done]; rewrite Hst in Hter; done.
Qed.

(** *** The barrier *)

Lemma step_behind_barrier (batch : list nat) (l : label) (s s' : state) :
  inv s -> step l s = Some s' ->
  behind_barrier batch s -> behind_barrier batch s'.
Proof.
  intros Hinv Hstep [(b & Hloop & Hb)|Hter].
  - unfold step in Hstep. rewrite Hloop in Hstep.
    destruct l; simpl in Hstep; try done.
    + destruct (pc_of i b) as [[| |]|] eqn:Hpc; try done.
      destruct (tasks (queue s) !! i) as [task|]; [|done].
      destruct (process_task_begin read write task (results s))
        as [[[task' p] dir] evs].
      simplify_eq/=. left. eexists. split; [done|]. apply set_pc_fst.
    + destruct (pc_of i b) as [[| |]|] eqn:Hpc; try done.
      destruct (tasks (queue s) !! i) as [task|]; [|done].
      destruct (process_task_resume reply write task (results s))
        as [[task' dir] evs].
      simplify_eq/=. left. eexists. split; [done|]. apply set_pc_fst.
    + destruct (all_finished b) eqn:Hfin; simplify_eq/=. right.
      unfold inv in Hinv. rewrite Hloop in Hinv.
      by destruct (inv_on_settle b _ Hinv Hfin).
    + pose proof (add_task_tasks now fault task_type input_path priority s)
        as [Hl _].
      simplify_eq/=. left. exists b. by rewrite Hl.
    + pose proof (on_modified_tasks now fault src_path s) as [Hl _].
      simplify_eq/=. left. exists b. by rewrite Hl.
    + simplify_eq/=. left. by exists b.
  - right. intros i Hi. destruct (Hter i Hi) as (k & Hk & Hkt).
    by eapply step_terminal_stable.
Qed.

Lemma exec_behind_barrier (batch : list nat) (ls : list label) (s s' : state) :
  inv s -> exec ls s = Some s' ->
  behind_barrier batch s -> behind_barrier batch s'.
Proof.
  revert s. induction ls as [|l ls IH]; intros s Hinv; simpl.
  - by intros [= ->].
  - destruct (step l s) as [s1|] eqn:E; [|done].
    intros H Hb. eapply (IH s1); [by eapply step_inv | done |].
    by eapply step_behind_barrier.
Qed.

Lemma iterate_at_loop_head (s s' : state) :
  step Iterate s = Some s' -> exists b, loop s = LoopHead b.
Proof. unfold step. destruct (loop s); [done | eauto | done]. Qed.

End Frame.

Section Effects.

Import TaskQueue Inv.

(** *** What one step writes *)

Lemma emitted_app (s s' : state) (evs : list event) :
  trace s' = trace s ++ evs -> Contract.emitted s s' = evs.
Proof. unfold Contract.emitted. intros ->. by rewrite drop_app_length. Qed.

Ltac not_in_list H :=
  repeat (apply elem_of_cons in H as [H|H]; [discriminate H|]);
  by apply elem_of_nil in H.

Lemma process_task_begin_events read write task dir task' p dir' evs :
  process_task_begin read write task dir = (task', p, dir', evs) ->
  (forall task_id, StoreSave task_id ∉ evs)
  /\ (Task.status task' = Task.completed ->
      ArtifactWrite (output_file task') ∈ evs).
Proof.
  unfold process_task_begin, complete, _save_result, on_exception.
  destruct (calls_client (Task.set_status Task.running task)),
    (reads_file (Task.set_status Task.running task)), read, write; simpl;
    intros [= <- <- <- <-]; (split; [intros task_id H; not_in_list H|]);
    simpl; intros Hst; try discriminate Hst; by left.
Qed.

Lemma process_task_resume_events reply write task dir task' dir' evs :
  process_task_resume reply write task dir = (task', dir', evs) ->
  (forall task_id, StoreSave task_id ∉ evs)
  /\ (Task.status task' = Task.completed ->
      ArtifactWrite (output_file task') ∈ evs).
Proof.
  unfold process_task_resume, complete, _save_result, on_exception.
  destruct reply, write; simpl;
    intros [= <- <- <-]; (split; [intros task_id H; not_in_list H|]);
    simpl; intros Hst; try discriminate Hst; by left.
Qed.

Lemma progress_updates_no_save (l : list Task.t) (b : list nat) (task_id : string) :
  StoreSave task_id ∉ progress_updates l b.
Proof.
  unfold progress_updates. intros H.
  apply list_elem_of_omap in H as (i & _ & Hi).
  destruct (l !! i); simpl in Hi; [|done]. by injection Hi.
Qed.

Lemma becomes_same (st : Task.Status) (i : nat) (s s' : state) :
  Contract.becomes st i s s' ->
  tasks (queue s') !! i = tasks (queue s) !! i -> False.
Proof. intros (k & k' & Hk & Hk' & Hne & Heq) H. congruence. Qed.

Lemma becomes_snoc (st : Task.Status) (i : nat) (s s' : state) (k0 : Task.t) :
  Contract.becomes st i s s' ->
  tasks (queue s') = tasks (queue s) ++ [k0] -> False.
Proof.
  intros (k & k' & Hk & Hk' & Hne & Heq) H. rewrite H in Hk'.
  rewrite (lookup_app_l_Some _ _ _ _ Hk) in Hk'. congruence.
Qed.

(** Every step appends its effects to the trace.  The slices of [run]
    leave the table alone and emit no store write; a record that becomes
    completed does so in a slice of [run] that emits the write of its
    result file. *)
Lemma step_trace (l : label) (s s' : state) :
  step l s = Some s' ->
  exists evs, trace s' = trace s ++ evs
    /\ (is_run_label l = true ->
        db s' = db s /\ forall task_id, StoreSave task_id ∉ evs)
    /\ (forall i k', Contract.becomes Task.completed i s s' ->
          tasks (queue s') !! i = Some k' ->
          is_run_label l = true /\ ArtifactWrite (output_file k') ∈ evs).
Proof.
  unfold step. intros Hstep. destruct l; simpl in Hstep.
  - destruct (loop s); simplify_eq/=. eexists. split; [done|]. split.
    + intros _. split; [done|]. intros task_id H. not_in_list H.
    + intros i k' Hb. by destruct (becomes_same _ _ _ _ Hb).
  - destruct (loop s) as [|b|]; [done| |done].
    assert (Hcases : s' = with_loop Idle (emit [Returned] s)
              \/ exists b', s' = with_loop (Gather b') s).
    { destruct (running (queue s) && _); [|left; by simplify_eq/=].
      destruct (pending_tasks (tasks (queue s))); simplify_eq/=; eauto. }
    destruct Hcases as [->|[b' ->]]; simpl.
    + eexists. split; [done|]. split.
      * intros _. split; [done|]. intros task_id H. not_in_list H.
      * intros i k' Hb. by destruct (becomes_same _ _ _ _ Hb).
    + exists []. split; [by rewrite app_nil_r|]. split.
      * intros _. split; [done|]. intros task_id H. not_in_list H.
      * intros i k' Hb. by destruct (becomes_same _ _ _ _ Hb).
  - destruct (loop s) as [| |batch] eqn:Hloop; [done..|].
    destruct (pc_of i batch) as [[| |]|] eqn:Hpc; try done.
    destruct (tasks (queue s) !! i) as [task|] eqn:Hi; [|done].
    destruct (process_task_begin read write task (results s))
      as [[[task' p] dir] evs] eqn:Hb.
    simplify_eq/=. apply process_task_begin_events in Hb as [Hns Hart].
    exists evs. split; [done|]. split; [done|].
    intros j k' Hbec Hj. split; [done|].
    destruct (decide (i = j)) as [->|Hne].
    + rewrite list_lookup_insert_eq in Hj by (by eapply lookup_lt_Some).
      injection Hj as <-. apply Hart.
      destruct Hbec as (k & k'' & _ & Hk'' & _ & Hst). simpl in Hk''.
      rewrite list_lookup_insert_eq in Hk'' by (by eapply lookup_lt_Some).
      congruence.
    + destruct (becomes_same _ _ _ _ Hbec). simpl.
      by rewrite list_lookup_insert_ne.
  - destruct (loop s) as [| |batch] eqn:Hloop; [done..|].
    destruct (pc_of i batch) as [[| |]|] eqn:Hpc; try done.
    destruct (tasks (queue s) !! i) as [task|] eqn:Hi; [|done].
    destruct (process_task_resume reply write task (results s))
      as [[task' dir] evs] eqn:Hb.
    simplify_eq/=. apply process_task_resume_events in Hb as [Hns Hart].
    exists evs. split; [done|]. split; [done|].
    intros j k' Hbec Hj. split; [done|].
    destruct (decide (i = j)) as [->|Hne].
    + rewrite list_lookup_insert_eq in Hj by (by eapply lookup_lt_Some).
      injection Hj as <-. apply Hart.
      destruct Hbec as (k & k'' & _ & Hk'' & _ & Hst). simpl in Hk''.
      rewrite list_lookup_insert_eq in Hk'' by (by eapply lookup_lt_Some).
      congruence.
    + destruct (becomes_same _ _ _ _ Hbec). simpl.
      by rewrite list_lookup_insert_ne.
  - destruct (loop s) as [| |batch]; [done..|].
    destruct (all_finished batch); simplify_eq/=.
    eexists. split; [done|]. split.
    + intros _. split; [done|]. intros task_id. apply progress_updates_no_save.
    + intros i k' Hb. by destruct (becomes_same _ _ _ _ Hb).
  - assert (s' = (add_task now fault task_type input_path priority s).2) as ->
      by (destruct (loop s); by simplify_eq/=).
    destruct (add_task now fault task_type input_path priority s)
      as [[e|task_id] s1] eqn:E; simpl.
    + unfold add_task in E. destruct (storage (queue s)).
      * destruct fault; simplify_eq/=. eexists. split; [done|].
        split; [done|]. intros i k' Hb. by destruct (becomes_same _ _ _ _ Hb).
      * simplify_eq/=. exists []. split; [by rewrite app_nil_r|].
        split; [done|]. intros i k' Hb. by destruct (becomes_same _ _ _ _ Hb).
    + unfold add_task in E. destruct (storage (queue s)); [|done].
      destruct fault; simplify_eq/=. eexists. split; [done|].
      split; [done|]. intros i k' Hb. by destruct (becomes_snoc _ _ _ _ _ Hb eq_refl).
  - assert (s' = (on_modified now fault src_path s).2) as ->
      by (destruct (loop s); by simplify_eq/=).
    unfold on_modified.
    destruct (Py.endswith src_path ".py"); simpl;
      [|exists []; split; [by rewrite app_nil_r|]; split; [done|];
        intros i k' Hb; by destruct (becomes_same _ _ _ _ Hb)].
    destruct (add_task now fault "code_improvement" (pathlib.Path src_path) 5 s)
      as [[e|task_id] s1] eqn:E; simpl.
    + unfold add_task in E. destruct (storage (queue s)).
      * destruct fault; simplify_eq/=. eexists. split; [done|].
        split; [done|]. intros i k' Hb. by destruct (becomes_same _ _ _ _ Hb).
      * simplify_eq/=. exists []. split; [by rewrite app_nil_r|].
        split; [done|]. intros i k' Hb. by destruct (becomes_same _ _ _ _ Hb).
    + unfold add_task in E. destruct (storage (queue s)); [|done].
      destruct fault; simplify_eq/=. eexists. split; [done|].
      split; [done|]. intros i k' Hb. by destruct (becomes_snoc _ _ _ _ _ Hb eq_refl).
  - assert (s' = with_running false s) as ->
      by (destruct (loop s); by simplify_eq/=).
    exists []. split; [by rewrite app_nil_r|]. split; [done|].
    intros i k' Hb. by destruct (becomes_same _ _ _ _ Hb).
Qed.

End Effects.

Section Progress.

Import TaskQueue Inv.

(** *** Coroutines that can still run *)

Lemma start_enabled (s : state) (batch : list (nat * pc)) (j : nat) (task : Task.t)
    read write :
  loop s = Gather batch -> pc_of j batch = Some Created ->
  tasks (queue s) !! j = Some task ->
  is_Some (step (Start j read write) s).
Proof.
  intros Hl Hpc Hj. unfold step. rewrite Hl, Hpc, Hj.
  by destruct (process_task_begin read write task (results s)) as [[[? ?] ?] ?].
Qed.

Lemma resume_enabled (s : state) (batch : list (nat * pc)) (j : nat) (task : Task.t)
    reply write :
  loop s = Gather batch -> pc_of j batch = Some Suspended ->
  tasks (queue s) !! j = Some task ->
  is_Some (step (Resume j reply write) s).
Proof.
  intros Hl Hpc Hj. unfold step. rewrite Hl, Hpc, Hj.
  by destruct (process_task_resume reply write task (results s)) as [[? ?] ?].
Qed.

Lemma iterate_enabled (s : state) (b : list nat) :
  loop s = LoopHead b -> is_Some (step Iterate s).
Proof.
  intros Hl. unfold step. rewrite Hl.
  destruct (running (queue s) && _); [|done].
  by destruct (pending_tasks (tasks (queue s))).
Qed.

(** No batch is selected while [run] waits in [gather]. *)
Lemma iterate_disabled_in_gather (s : state) (batch : list (nat * pc)) :
  loop s = Gather batch -> step Iterate s = None.
Proof. intros Hl. unfold step. by rewrite Hl. Qed.

End Progress.

(** C5: from a process in which [run] has not started and no record is
    running, whatever the calls, replies and failures that follow, at most
    three records have the status running. *)
Theorem running_never_exceeds_three (s0 s : TaskQueue.state) (ls : list TaskQueue.label) :
  TaskQueue.initial s0 -> TaskQueue.exec ls s0 = Some s ->
  TaskQueue.running_count s <= 3.
Proof.
  intros Hinit Hexec. unfold TaskQueue.running_count.
  apply (inv_on_running_count (TaskQueue.loop s)).
  eapply exec_inv; [exact Hexec | by apply initial_inv].
Qed.

(** C5 at five queued jobs, when the three coroutines of the first batch
    are all awaiting: three records are running. *)
Lemma running_never_exceeds_three_witness :
  exists s,
    TaskQueue.exec (Scenario.to_first_batch ++ Scenario.start_three) Scenario.start = Some s
    /\ TaskQueue.running_count s = 3
    /\ TaskQueue.running_count s <= 3.
Proof.
  eexists. split; [vm_compute; reflexivity|]. split; [vm_compute; reflexivity|].
  eapply (running_never_exceeds_three Scenario.start _
           (Scenario.to_first_batch ++ Scenario.start_three)).
  - split; [reflexivity | constructor].
  - vm_compute. reflexivity.
Defined.

(** C6: [run] is waiting in [gather] for a batch.  Whatever happens next, at
    the moment the loop selects again (the next [Iterate] step), every
    record of that batch is completed or failed, and no record at all is
    running. *)
Theorem next_batch_waits_for_whole_batch
    (s0 s1 s2 s3 : TaskQueue.state) (ls1 ls2 : list TaskQueue.label)
    (batch : list (nat * TaskQueue.pc)) :
  TaskQueue.initial s0 ->
  TaskQueue.exec ls1 s0 = Some s1 ->
  TaskQueue.loop s1 = TaskQueue.Gather batch ->
  TaskQueue.exec ls2 s1 = Some s2 ->
  TaskQueue.step TaskQueue.Iterate s2 = Some s3 ->
  Inv.all_terminal (TaskQueue.tasks (TaskQueue.queue s2)) batch.*1
  /\ TaskQueue.running_count s2 = 0.
Proof.
  intros Hinit H1 Hloop H2 H3.
  assert (Hinv1 : Inv.inv s1) by (eapply exec_inv; [exact H1 | by apply initial_inv]).
  assert (Hinv2 : Inv.inv s2) by (by eapply exec_inv).
  destruct (iterate_at_loop_head _ _ H3) as [b Hb].
  split.
  - assert (Hbar : Inv.behind_barrier batch.*1 s2).
    { eapply exec_behind_barrier; [exact Hinv1 | exact H2 |].
      left. by exists batch. }
    destruct Hbar as [(b' & Hb' & _)|Hter]; [congruence | done].
  - unfold Inv.inv in Hinv2. rewrite Hb in Hinv2. destruct Hinv2 as [Hnr _].
    by apply none_running_count.
Qed.

(** C6 at five queued jobs: the second batch, records 3 and 4, is selected
    when records 0, 1, 2 are terminal. *)
Lemma next_batch_waits_for_whole_batch_witness :
  exists s1 s2 s3,
    TaskQueue.exec Scenario.to_first_batch Scenario.start = Some s1
    /\ TaskQueue.exec (Scenario.start_three ++ Scenario.settle_three) s1 = Some s2
    /\ TaskQueue.step TaskQueue.Iterate s2 = Some s3
    /\ Scenario.batch_of s3 = [3; 4]
    /\ Inv.all_terminal (TaskQueue.tasks (TaskQueue.queue s2)) [0; 1; 2]
    /\ TaskQueue.running_count s2 = 0.
Proof.
  eexists _, _, _.
  split; [vm_compute; reflexivity|].
  split; [vm_compute; reflexivity|].
  split; [vm_compute; reflexivity|].
  split; [reflexivity|].
  eapply (next_batch_waits_for_whole_batch Scenario.start _ _ _
           Scenario.to_first_batch (Scenario.start_three ++ Scenario.settle_three)
           [(0, TaskQueue.Created); (1, TaskQueue.Created); (2, TaskQueue.Created)]).
  - split; [reflexivity | constructor].
  - vm_compute. reflexivity.
  - reflexivity.
  - vm_compute. reflexivity.
  - vm_compute. reflexivity.
Defined.

(** C4 (counterexample): one job is enqueued and its coroutine is awaiting the
    client.  If the client replies, the record becomes completed and the
    step emits the write of the result file and nothing else: no store
    write.  If the client raises, the record becomes failed and the step
    emits one log line: neither a store write nor a result file. *)
Lemma terminal_transitions_skip_the_store :
  exists s sc sf,
    TaskQueue.exec
      [Scenario.enqueue 5; TaskQueue.CallRun; TaskQueue.Iterate;
       TaskQueue.Start 0 (inr "x = 1") None] Scenario.start = Some s
    /\ TaskQueue.step (TaskQueue.Resume 0 (inr Scenario.reply) None) s = Some sc
    /\ Contract.becomes Task.completed 0 s sc
    /\ Contract.emitted s sc
       = [TaskQueue.ArtifactWrite "results/code_improvement_0_20240101_120000_result.json"]
    /\ ~ Contract.terminal_writes_attempted 0 s sc
    /\ TaskQueue.step (TaskQueue.Resume 0 (inl Scenario.boom) None) s = Some sf
    /\ Contract.becomes Task.failed 0 s sf
    /\ Contract.emitted s sf
       = [TaskQueue.LogError "Task code_improvement_0_20240101_120000 failed: boom"]
    /\ ~ Contract.terminal_writes_attempted 0 s sf.
Proof.
  eexists _, _, _.
  split; [vm_compute; reflexivity|].
  split; [vm_compute; reflexivity|].
  split; [eexists _, _; repeat split; try (vm_compute; reflexivity); discriminate|].
  split; [vm_compute; reflexivity|].
  split.
  { intros H. edestruct H as [Hsave _]; [vm_compute; reflexivity|].
    vm_compute in Hsave.
    apply elem_of_cons in Hsave as [Hsave|Hsave]; [discriminate Hsave|].
    by apply elem_of_nil in Hsave. }
  split; [vm_compute; reflexivity|].
  split; [eexists _, _; repeat split; try (vm_compute; reflexivity); discriminate|].
  split; [vm_compute; reflexivity|].
  intros H. edestruct H as [Hsave _]; [vm_compute; reflexivity|].
  vm_compute in Hsave.
  apply elem_of_cons in Hsave as [Hsave|Hsave]; [discriminate Hsave|].
  by apply elem_of_nil in Hsave.
Qed.

(** C4 (amended): in every step, a record that becomes completed does so in a
    slice of [run], and that slice emits the write of the file
    [results/<id>_result.json] for that record; no slice of [run], whatever
    transition it performs, changes the table or emits a store write. *)
Theorem completed_writes_result_file_and_no_row
    (l : TaskQueue.label) (s s' : TaskQueue.state) :
  TaskQueue.step l s = Some s' ->
  (Inv.is_run_label l = true ->
     TaskQueue.db s' = TaskQueue.db s
     /\ forall task_id, TaskQueue.StoreSave task_id ∉ Contract.emitted s s')
  /\ (forall i k', Contract.becomes Task.completed i s s' ->
        TaskQueue.tasks (TaskQueue.queue s') !! i = Some k' ->
        Inv.is_run_label l = true
        /\ TaskQueue.ArtifactWrite ("results/" +:+ Task.id k' +:+ "_result.json")
             ∈ Contract.emitted s s').
Proof.
  intros Hstep. destruct (step_trace l s s' Hstep) as (evs & Htr & Hrun & Hdone).
  rewrite (emitted_app s s' evs Htr). split; [exact Hrun|].
  intros i k' Hb Hk'. apply (Hdone i k' Hb Hk').
Qed.

(** C4 (amended) at the step in which the client replies to the one job. *)
Lemma completed_writes_result_file_and_no_row_witness :
  exists s s',
    TaskQueue.exec
      [Scenario.enqueue 5; TaskQueue.CallRun; TaskQueue.Iterate;
       TaskQueue.Start 0 (inr "x = 1") None] Scenario.start = Some s
    /\ TaskQueue.step (TaskQueue.Resume 0 (inr Scenario.reply) None) s = Some s'
    /\ (Inv.is_run_label (TaskQueue.Resume 0 (inr Scenario.reply) None) = true ->
          TaskQueue.db s' = TaskQueue.db s
          /\ forall task_id, TaskQueue.StoreSave task_id ∉ Contract.emitted s s')
    /\ (forall i k', Contract.becomes Task.completed i s s' ->
          TaskQueue.tasks (TaskQueue.queue s') !! i = Some k' ->
          Inv.is_run_label (TaskQueue.Resume 0 (inr Scenario.reply) None) = true
          /\ TaskQueue.ArtifactWrite ("results/" +:+ Task.id k' +:+ "_result.json")
               ∈ Contract.emitted s s').
Proof.
  eexists _, _.
  split; [vm_compute; reflexivity|].
  split; [vm_compute; reflexivity|].
  apply (completed_writes_result_file_and_no_row
           (TaskQueue.Resume 0 (inr Scenario.reply) None)).
  vm_compute. reflexivity.
Defined.

(** C9: the queue is the one [TaskQueue()] builds, as the [watch] command
    does.  A modification event for [foo.py] makes [on_modified] raise
    AttributeError at [self.storage]; no record is queued and
    [get_pending_tasks] has no row. *)
Theorem on_modified_raises_without_storage :
  TaskQueue.on_modified Scenario.noon None "foo.py"
    (TaskQueue.fresh Scenario.class_time [])
  = (inl (Py.Exception "AttributeError"
            "'TaskQueue' object has no attribute 'storage'"),
     TaskQueue.fresh Scenario.class_time [])
  /\ TaskQueue.tasks (TaskQueue.queue (TaskQueue.fresh Scenario.class_time [])) = []
  /\ Storage.get_pending_tasks (TaskQueue.db (TaskQueue.fresh Scenario.class_time [])) = [].
Proof. repeat split; vm_compute; reflexivity. Qed.

(** C8: two records are enqueued at different times of the clock, [noon] and
    seven seconds [later]; both carry the [created_at] of the class,
    [class_time], so the two values are equal. *)
Theorem created_at_is_shared_by_all_records :
  exists s1 s2 id1 id2 k1 k2,
    TaskQueue.add_task Scenario.noon None "code_improvement" "a.py" 5
      (TaskQueue.fresh_with_storage Scenario.class_time []) = (inr id1, s1)
    /\ TaskQueue.add_task Scenario.later None "code_improvement" "b.py" 5 s1 = (inr id2, s2)
    /\ TaskQueue.tasks (TaskQueue.queue s2) = [k1; k2]
    /\ Scenario.noon <> Scenario.later
    /\ Task.created_at k1 = Scenario.class_time
    /\ Task.created_at k2 = Scenario.class_time
    /\ Task.created_at k1 = Task.created_at k2.
Proof.
  eexists _, _, _, _, _, _.
  split; [reflexivity|]. split; [reflexivity|]. split; [reflexivity|].
  split; [discriminate|]. done.
Qed.

(** C3: five jobs with priorities 1, 5, 0, 5, 3 are enqueued in that order.
    The first batch of [run] is made of the first three records, of
    priorities 1, 5, 0; once they are settled the second batch is made of
    the records of priorities 5 and 3. *)
Theorem run_takes_batches_in_insertion_order :
  exists s5 s1 s2,
    Scenario.five_jobs = Some s5
    /\ TaskQueue.exec [TaskQueue.CallRun; TaskQueue.Iterate] s5 = Some s1
    /\ Scenario.batch_of s1 = [0; 1; 2]
    /\ Scenario.priorities_of s1 (Scenario.batch_of s1) = [1; 5; 0]%Z
    /\ TaskQueue.exec
         [TaskQueue.Start 0 (inr "x = 1") None;
          TaskQueue.Start 1 (inr "y = 2") None;
          TaskQueue.Start 2 (inr "z = 3") None;
          TaskQueue.Resume 1 (inr (Py.Dict [("improvements", Py.List [])])) None;
          TaskQueue.Resume 0 (inr (Py.Dict [("improvements", Py.List [])])) None;
          TaskQueue.Resume 2 (inl Scenario.boom) None;
          TaskQueue.Settle; TaskQueue.Iterate] s1 = Some s2
    /\ Scenario.batch_of s2 = [3; 4]
    /\ Scenario.priorities_of s2 (Scenario.batch_of s2) = [5; 3]%Z.
Proof.
  eexists _, _, _.
  split; [vm_compute; reflexivity|].
  split; [vm_compute; reflexivity|].
  split; [reflexivity|]. split; [reflexivity|].
  split; [vm_compute; reflexivity|].
  split; reflexivity.
Qed.


(** * Further properties of the store *)

Section StoreKey.

Import Storage.

Lemma filter_other_ids (tid : string) (db : table) :
  NoDup (id <$> db) -> NoDup (id <$> filter (fun r => id r <> tid) db).
Proof.
  intros H. eapply sublist_NoDup; [exact H|].
  apply fmap_sublist, sublist_filter.
Qed.

End StoreKey.

(** X1: [save_task] treats [id] as the primary key.  If the ids of the table
    are pairwise distinct they still are after the save; the table then
    holds exactly one row under the task's id, the row of the task; and the
    rows of the other ids are the same rows in the same order. *)
Theorem save_task_keeps_primary_key (db db' : Storage.table) (task : Task.t) :
  NoDup (Storage.id <$> db) ->
  Storage.save_task None db task = inr db' ->
  NoDup (Storage.id <$> db')
  /\ filter (fun r => Storage.id r = Task.id task) db' = [Storage.row_of_task task]
  /\ filter (fun r => Storage.id r <> Task.id task) db'
     = filter (fun r => Storage.id r <> Task.id task) db.
Proof.
  intros Hnd [= <-]. unfold Storage.insert_or_replace, Storage.table in *.
  change (Storage.id (Storage.row_of_task task)) with (Task.id task).
  split; [|split].
  - rewrite fmap_app. apply NoDup_app. split; [by apply filter_other_ids|].
    split; [|apply NoDup_singleton].
    intros x Hx Hx'. apply list_elem_of_singleton in Hx'.
    apply list_elem_of_fmap in Hx as (r & -> & Hr).
    apply list_elem_of_filter in Hr as [Hr _]. by apply Hr.
  - rewrite filter_app.
    rewrite (list_filter_filter (fun r => Storage.id r = Task.id task)).
    assert (Hnone : filter (fun r => Storage.id r = Task.id task
                                 /\ Storage.id r <> Task.id task) db = []).
    { clear Hnd. induction db as [|r db IH]; [done|].
      rewrite filter_cons_False; [apply IH | tauto]. }
    rewrite Hnone. by rewrite filter_cons_True.
  - rewrite filter_app, list_filter_filter_l by done.
    rewrite filter_cons_False by (by intros H; apply H).
    by rewrite app_nil_r.
Qed.

(** X1 at a table that holds the row of [late], when [early] is saved. *)
Lemma save_task_keeps_primary_key_witness :
  NoDup (Storage.id <$> [Storage.row_of_task Scenario.late;
                          Storage.row_of_task Scenario.early])
  /\ filter (fun r => Storage.id r = Task.id Scenario.early)
       [Storage.row_of_task Scenario.late; Storage.row_of_task Scenario.early]
     = [Storage.row_of_task Scenario.early]
  /\ filter (fun r => Storage.id r <> Task.id Scenario.early)
       [Storage.row_of_task Scenario.late; Storage.row_of_task Scenario.early]
     = filter (fun r => Storage.id r <> Task.id Scenario.early)
         [Storage.row_of_task Scenario.late].
Proof.
  apply (save_task_keeps_primary_key [Storage.row_of_task Scenario.late] _ Scenario.early).
  - apply NoDup_singleton.
  - reflexivity.
Defined.

(** X2: the last save under an id wins.  After a task was saved, saving a
    task with the same id gives the table that the second save alone would
    have given; and saving the first task once more changes nothing. *)
Theorem save_task_last_write_wins (db db1 : Storage.table) (task task' : Task.t) :
  Storage.save_task None db task = inr db1 ->
  Task.id task' = Task.id task ->
  Storage.save_task None db1 task' = Storage.save_task None db task'
  /\ Storage.save_task None db1 task = inr db1.
Proof.
  intros [= <-] Hid.
  assert (Hagain : forall t, Task.id t = Task.id task ->
            Storage.insert_or_replace (Storage.row_of_task t)
              (Storage.insert_or_replace (Storage.row_of_task task) db)
            = Storage.insert_or_replace (Storage.row_of_task t) db).
  { intros t Ht. unfold Storage.insert_or_replace, Storage.table in *.
    change (Storage.id (Storage.row_of_task t)) with (Task.id t).
    change (Storage.id (Storage.row_of_task task)) with (Task.id task).
    rewrite Ht, filter_app, list_filter_filter_l by done.
    rewrite filter_cons_False by (by intros H; apply H).
    by rewrite app_nil_r. }
  unfold Storage.save_task. split; f_equal; by apply Hagain.
Qed.

(** X2 at [early] saved on the empty table, then saved again completed. *)
Lemma save_task_last_write_wins_witness :
  Storage.save_task None [Storage.row_of_task Scenario.early]
    (Task.set_status Task.completed Scenario.early)
  = Storage.save_task None [] (Task.set_status Task.completed Scenario.early)
  /\ Storage.save_task None [Storage.row_of_task Scenario.early] Scenario.early
     = inr [Storage.row_of_task Scenario.early].
Proof.
  apply (save_task_last_write_wins [] _ Scenario.early
           (Task.set_status Task.completed Scenario.early)); reflexivity.
Defined.

(** X3: a saved task is found by [get_pending_tasks] exactly when its status
    is pending: a pending task's row is returned, and for any other status
    no returned row carries the task's id (a row that was pending under
    that id is gone). *)
Theorem saved_task_is_pending_iff_status (db db' : Storage.table) (task : Task.t) :
  Storage.save_task None db task = inr db' ->
  (Task.status task = Task.pending ->
     Storage.row_of_task task ∈ Storage.get_pending_tasks db')
  /\ (Task.status task <> Task.pending ->
        forall r, r ∈ Storage.get_pending_tasks db' -> Storage.id r <> Task.id task).
Proof.
  intros [= <-]. unfold Storage.get_pending_tasks. split.
  - intros Hst. rewrite order_by_priority_desc_perm.
    apply list_elem_of_filter. split; [|apply insert_or_replace_elem].
    unfold Storage.is_pending. simpl. by rewrite Hst.
  - intros Hst r Hr Hid. rewrite order_by_priority_desc_perm in Hr.
    apply list_elem_of_filter in Hr as [Hpend Hin].
    apply insert_or_replace_lookup in Hin; [|done]. subst r.
    unfold Storage.is_pending in Hpend. simpl in Hpend.
    by destruct (Task.status task).
Qed.

(** X3 at [early], saved pending and then saved again as completed. *)
Lemma saved_task_is_pending_iff_status_witness :
  (Task.status (Task.set_status Task.completed Scenario.early) = Task.pending ->
     Storage.row_of_task (Task.set_status Task.completed Scenario.early)
     ∈ Storage.get_pending_tasks
         [Storage.row_of_task (Task.set_status Task.completed Scenario.early)])
  /\ (Task.status (Task.set_status Task.completed Scenario.early) <> Task.pending ->
        forall r,
          r ∈ Storage.get_pending_tasks
                [Storage.row_of_task (Task.set_status Task.completed Scenario.early)] ->
          Storage.id r <> Task.id (Task.set_status Task.completed Scenario.early)).
Proof.
  apply (saved_task_is_pending_iff_status [Storage.row_of_task Scenario.early] _
           (Task.set_status Task.completed Scenario.early)).
  reflexivity.
Defined.

(** * Further properties of the queue *)

Section Histories.

Import TaskQueue Inv History.

Lemma process_task_begin_results read write task dir task' p dir' evs :
  process_task_begin read write task dir = (task', p, dir', evs) ->
  (Task.status task' = Task.completed /\ dir' = write_file (output_file task')
                                                   (json.dumps (result_document task')) dir)
  \/ (Task.status task' <> Task.completed /\ dir' = dir).
Proof.
  unfold process_task_begin, complete, _save_result, on_exception.
  destruct (calls_client (Task.set_status Task.running task)),
    (reads_file (Task.set_status Task.running task)), read, write; simpl;
    intros [= <- <- <- <-]; simpl; (by left) || (by right).
Qed.

Lemma process_task_resume_results reply write task dir task' dir' evs :
  process_task_resume reply write task dir = (task', dir', evs) ->
  (Task.status task' = Task.completed /\ dir' = write_file (output_file task')
                                                   (json.dumps (result_document task')) dir)
  \/ (Task.status task' <> Task.completed /\ dir' = dir).
Proof.
  unfold process_task_resume, complete, _save_result, on_exception.
  destruct reply, write; simpl; intros [= <- <- <-]; simpl; (by left) || (by right).
Qed.

(** Every step is of one of the three kinds, and none changes the class
    attribute [Task.created_at]. *)
Lemma step_cases (l : label) (s s' : state) :
  step l s = Some s' ->
  class_created_at s' = class_created_at s
  /\ (quiet s s' \/ appended s s' \/ coroutine_slice s s').
Proof.
  unfold step. intros Hstep. destruct l; simpl in Hstep.
  - destruct (loop s); simplify_eq/=. split; [done|]. by left.
  - destruct (loop s) as [|b|]; [done| |done].
    assert (Hcases : s' = with_loop Idle (emit [Returned] s)
              \/ exists b', s' = with_loop (Gather b') s).
    { destruct (running (queue s) && _); [|left; by simplify_eq/=].
      destruct (pending_tasks (tasks (queue s))); simplify_eq/=; eauto. }
    destruct Hcases as [->|[b' ->]]; (split; [done|]); by left.
  - destruct (loop s) as [| |batch] eqn:Hloop; [done..|].
    destruct (pc_of i batch) as [[| |]|] eqn:Hpc; try done.
    destruct (tasks (queue s) !! i) as [task|] eqn:Hi; [|done].
    destruct (process_task_begin read write task (results s))
      as [[[task' p] dir] evs] eqn:Hb.
    simplify_eq/=. split; [done|]. right; right.
    pose proof (process_task_begin_pc _ _ _ _ _ _ _ _ Hb) as [Hsame Hp].
    pose proof (process_task_begin_results _ _ _ _ _ _ _ _ Hb) as Hres.
    exists i, batch, Created, p, task, task'. simpl.
    do 6 (split; [done|]). split; [exact Hsame|]. split; [|exact Hres].
    destruct p; [done| |]; auto.
  - destruct (loop s) as [| |batch] eqn:Hloop; [done..|].
    destruct (pc_of i batch) as [[| |]|] eqn:Hpc; try done.
    destruct (tasks (queue s) !! i) as [task|] eqn:Hi; [|done].
    destruct (process_task_resume reply write task (results s))
      as [[task' dir] evs] eqn:Hb.
    simplify_eq/=. split; [done|]. right; right.
    pose proof (process_task_resume_terminal _ _ _ _ _ _ _ Hb) as [Hsame Hp].
    pose proof (process_task_resume_results _ _ _ _ _ _ _ Hb) as Hres.
    exists i, batch, Suspended, Finished, task, task'. simpl.
    do 6 (split; [done|]). split; [exact Hsame|]. split; [|exact Hres].
    auto.
  - destruct (loop s) as [| |batch]; [done..|].
    destruct (all_finished batch); simplify_eq/=. split; [done|]. by left.
  - assert (s' = (add_task now fault task_type input_path priority s).2) as ->
      by (destruct (loop s); by simplify_eq/=).
    unfold add_task. destruct (storage (queue s)); [|split; [done|]; by left].
    destruct fault; simpl; (split; [done|]); [by left|].
    right; left. by exists task_type, input_path, priority, now.
  - assert (s' = (on_modified now fault src_path s).2) as ->
      by (destruct (loop s); by simplify_eq/=).
    unfold on_modified.
    destruct (Py.endswith src_path ".py"); [|split; [done|]; by left].
    unfold add_task. destruct (storage (queue s)); [|split; [done|]; by left].
    destruct fault; simpl; (split; [done|]); [by left|].
    right; left. by exists "code_improvement", (pathlib.Path src_path), 5%Z, now.
  - assert (s' = with_running false s) as ->
      by (destruct (loop s); by simplify_eq/=).
    split; [done|]. by left.
Qed.

End Histories.

Section HistoryFacts.

Import TaskQueue Inv History.

Lemma exec_preserves (P : state -> Prop) :
  (forall l s s', P s -> step l s = Some s' -> P s') ->
  forall ls s s', exec ls s = Some s' -> P s -> P s'.
Proof.
  intros Hstep ls. induction ls as [|l ls IH]; intros s s'; simpl.
  - by intros [= ->].
  - destruct (step l s) as [s1|] eqn:E; [|done].
    intros H HP. eapply IH; [done|]. by eapply Hstep.
Qed.

Lemma exec_app (ls1 ls2 : list label) (s : state) :
  exec (ls1 ++ ls2) s = exec ls1 s ≫= exec ls2.
Proof.
  revert s. induction ls1 as [|l ls1 IH]; intros s; simpl; [done|].
  destruct (step l s); [apply IH | done].
Qed.

Lemma same_job_refl (k : Task.t) : same_job k k.
Proof. done. Qed.

Lemma same_job_trans (k1 k2 k3 : Task.t) :
  same_job k1 k2 -> same_job k2 k3 -> same_job k1 k3.
Proof.
  intros (? & ? & ? & ? & ?) (? & ? & ? & ? & ?). repeat split; congruence.
Qed.

(** *** Ids *)

Lemma step_minted (l : label) (s s' : state) :
  minted (tasks (queue s)) -> step l s = Some s' -> minted (tasks (queue s')).
Proof.
  intros Hm Hstep. destruct (step_cases l s s' Hstep) as [_ [Hq|[Ha|Hc]]].
  - destruct Hq as (-> & _). done.
  - destruct Ha as (ty & path & prio & now & -> & _). by apply minted_snoc.
  - destruct Hc as (i & batch & p0 & p & task & task' & _ & _ & _ & Hi & -> & _ & Hsame & _).
    intros j k' Hj. apply list_lookup_insert_Some in Hj as [(<- & <- & _)|[_ Hj]].
    + destruct (Hm i task Hi) as (ty & now & Hid). exists ty, now.
      destruct Hsame as [-> _]. done.
    + by apply Hm.
Qed.

Lemma boot_minted (s : state) : boot s -> minted (tasks (queue s)).
Proof. intros [_ ->] i k Hi. by rewrite lookup_nil in Hi. Qed.

Lemma minted_ids_distinct (l : list Task.t) : minted l -> NoDup (Task.id <$> l).
Proof.
  intros Hm. apply NoDup_alt. intros i j x Hi Hj.
  rewrite list_lookup_fmap in Hi, Hj.
  destruct (l !! i) as [k|] eqn:Ek; [|done].
  destruct (l !! j) as [k'|] eqn:Ek'; [|done].
  simpl in *. destruct (Hm i k Ek) as (ty & now & Hid).
  destruct (Hm j k' Ek') as (ty' & now' & Hid').
  assert (Heq : mint_id ty i now = mint_id ty' j now') by congruence.
  by apply mint_id_inj in Heq as [_ ?].
Qed.

Lemma boot_initial (s : state) : boot s -> initial s.
Proof. intros [Hl Ht]. split; [done|]. rewrite Ht. constructor. Qed.

End HistoryFacts.

(** X4: in every history of a queue that started empty, whatever was
    enqueued, run, stopped or failed, the ids of the queued records are
    pairwise distinct. *)
Theorem queue_ids_are_distinct (s0 s : TaskQueue.state) (ls : list TaskQueue.label) :
  History.boot s0 -> TaskQueue.exec ls s0 = Some s ->
  NoDup (Task.id <$> TaskQueue.tasks (TaskQueue.queue s)).
Proof.
  intros Hboot Hexec. apply minted_ids_distinct.
  eapply (exec_preserves (fun s => Inv.minted (TaskQueue.tasks (TaskQueue.queue s))));
    [|exact Hexec | by apply boot_minted].
  intros l s1 s2 Hm Hstep. by eapply step_minted.
Qed.

(** X4 after five jobs were enqueued within the same second. *)
Lemma queue_ids_are_distinct_witness :
  exists s, TaskQueue.exec Scenario.enqueue_five Scenario.start = Some s
    /\ NoDup (Task.id <$> TaskQueue.tasks (TaskQueue.queue s)).
Proof.
  eexists. split; [vm_compute; reflexivity|].
  eapply (queue_ids_are_distinct Scenario.start _ Scenario.enqueue_five).
  - split; reflexivity.
  - vm_compute. reflexivity.
Defined.

(** X5: no step removes or reorders records, and none assigns the id, type,
    input path, creation time or priority of a record: along any history a
    record stays at its position with these five fields unchanged, and the
    queue never gets shorter. *)
Theorem records_keep_their_identity
    (s s' : TaskQueue.state) (ls : list TaskQueue.label) :
  TaskQueue.exec ls s = Some s' ->
  length (TaskQueue.tasks (TaskQueue.queue s))
    <= length (TaskQueue.tasks (TaskQueue.queue s'))
  /\ forall i k, TaskQueue.tasks (TaskQueue.queue s) !! i = Some k ->
       exists k', TaskQueue.tasks (TaskQueue.queue s') !! i = Some k'
         /\ Inv.same_job k k'.
Proof.
  intros Hexec.
  assert (Hrec : forall i k, TaskQueue.tasks (TaskQueue.queue s) !! i = Some k ->
            exists k', TaskQueue.tasks (TaskQueue.queue s') !! i = Some k'
              /\ Inv.same_job k k').
  { intros i k Hi.
    eapply (exec_preserves
              (fun s1 => exists k', TaskQueue.tasks (TaskQueue.queue s1) !! i = Some k'
                           /\ Inv.same_job k k')); [|exact Hexec|].
    - intros l s1 s2 (k1 & Hk1 & Hs1) Hstep.
      destruct (step_same_job l s1 s2 i k1 Hstep Hk1) as (k2 & Hk2 & Hs2).
      exists k2. split; [done|]. by eapply same_job_trans.
    - exists k. split; [done | apply same_job_refl]. }
  split; [|exact Hrec].
  destruct (TaskQueue.tasks (TaskQueue.queue s)) as [|k0 l0] eqn:El using rev_ind;
    [simpl; lia|].
  clear IHl0. rewrite length_app. simpl.
  destruct (Hrec (length l0) k0) as (k' & Hk' & _).
  { by apply list_lookup_middle. }
  apply lookup_lt_Some in Hk'. lia.
Qed.

(** X5 at the five jobs, from their enqueueing to the end of the first batch. *)
Lemma records_keep_their_identity_witness :
  exists s s',
    TaskQueue.exec Scenario.enqueue_five Scenario.start = Some s
    /\ TaskQueue.exec ([TaskQueue.CallRun; TaskQueue.Iterate]
                       ++ Scenario.start_three ++ Scenario.settle_three) s = Some s'
    /\ length (TaskQueue.tasks (TaskQueue.queue s))
       <= length (TaskQueue.tasks (TaskQueue.queue s'))
    /\ forall i k, TaskQueue.tasks (TaskQueue.queue s) !! i = Some k ->
         exists k', TaskQueue.tasks (TaskQueue.queue s') !! i = Some k'
           /\ Inv.same_job k k'.
Proof.
  eexists _, _. split; [vm_compute; reflexivity|].
  split; [vm_compute; reflexivity|].
  eapply (records_keep_their_identity _ _
            ([TaskQueue.CallRun; TaskQueue.Iterate]
             ++ Scenario.start_three ++ Scenario.settle_three)).
  vm_compute. reflexivity.
Defined.

Section StatusFacts.

Import TaskQueue Inv History.

Lemma terminal_rank (k : Task.t) : Task.is_terminal k = true <-> rank (Task.status k) = 2.
Proof. unfold Task.is_terminal. by destruct (Task.status k). Qed.

(** One step leaves a record as it is or moves its status forward. *)
Lemma step_status_forward (l : label) (s s' : state) (i : nat) (k : Task.t) :
  inv s -> step l s = Some s' -> tasks (queue s) !! i = Some k ->
  exists k', tasks (queue s') !! i = Some k'
    /\ (k' = k \/ rank (Task.status k) < rank (Task.status k')).
Proof.
  intros Hinv Hstep Hi. destruct (step_cases l s s' Hstep) as [_ [Hq|[Ha|Hc]]].
  - destruct Hq as (-> & _). eauto.
  - destruct Ha as (ty & path & prio & now & -> & _).
    exists k. split; [by apply lookup_app_l_Some | by left].
  - destruct Hc as (j & batch & p0 & p & task & task' & Hloop & Hpc & _ & Hj & -> & _ & _ & Hp & _).
    destruct (decide (j = i)) as [->|Hne];
      [|exists k; split; [by rewrite list_lookup_insert_ne | by left]].
    exists task'. split; [apply list_lookup_insert_eq; by eapply lookup_lt_Some|].
    right. assert (task = k) as -> by congruence.
    unfold inv in Hinv. rewrite Hloop in Hinv.
    destruct Hinv as (_ & _ & Hco & _). rewrite Forall_forall in Hco.
    destruct (Hco _ (pc_of_elem _ _ _ Hpc)) as (k1 & Hk1 & Hst). simpl in *.
    assert (k1 = k) as -> by congruence.
    destruct p; [done| |].
    + destruct Hp as [-> Hrun]. rewrite Hst, Hrun. simpl. lia.
    + destruct Hp as [Hp0 Hter]. apply terminal_rank in Hter. rewrite Hter.
      destruct Hp0 as [-> | ->]; rewrite Hst; simpl; lia.
Qed.

End StatusFacts.

Section StoreAndFiles.

Import TaskQueue Inv History.

Lemma same_job_row (k k' : Task.t) :
  same_job k k' -> row_as_enqueued k' = row_as_enqueued k.
Proof.
  intros (Hid & Hty & Hpath & Hcr & Hprio). unfold row_as_enqueued.
  by rewrite Hid, Hty, Hpath, Hcr, Hprio.
Qed.

Lemma step_rows_kept (l : label) (s s' : state) :
  rows_kept s -> step l s = Some s' -> rows_kept s'.
Proof.
  intros [Hm Hrows] Hstep. split; [by eapply step_minted|].
  destruct (step_cases l s s' Hstep) as [_ [Hq|[Ha|Hc]]].
  - destruct Hq as (-> & _ & ->). done.
  - destruct Ha as (ty & path & prio & now & -> & _ & ->).
    intros i k Hi. apply lookup_snoc_Some in Hi as [[_ Hi]|[_ <-]].
    + unfold Storage.insert_or_replace. apply elem_of_app. left.
      apply list_elem_of_filter. split; [|by eapply Hrows].
      simpl. apply mint_id_fresh; [done|]. by eapply list_elem_of_lookup_2.
    + apply insert_or_replace_elem.
  - destruct Hc as (j & batch & p0 & p & task & task' & _ & _ & _ & Hj & -> & -> & Hsame & _).
    intros i k Hi. apply list_lookup_insert_Some in Hi as [(<- & <- & _)|[_ Hi]].
    + rewrite (same_job_row _ _ Hsame). by eapply Hrows.
    + by eapply Hrows.
Qed.

(** *** Result files *)

Lemma length_append (a b : string) :
  String.length (a +:+ b) = String.length a + String.length b.
Proof. induction a as [|c a IH]; [done|]. rewrite append_cons. simpl. by rewrite IH. Qed.

Lemma append_inj_l (a x y : string) : a +:+ x = a +:+ y -> x = y.
Proof.
  induction a as [|c a IH]; [done|]. rewrite !append_cons. intros [= H]. by apply IH.
Qed.

Lemma append_inj_r (b x y : string) : x +:+ b = y +:+ b -> x = y.
Proof.
  intros H.
  assert (Hlen : String.length x = String.length y).
  { apply (f_equal String.length) in H. rewrite !length_append in H. lia. }
  revert y H Hlen. induction x as [|c x IH]; intros [|c' y]; simpl; try done.
  rewrite !append_cons. intros [= -> H] [= Hlen]. f_equal. by apply IH.
Qed.

Lemma output_file_inj (k k' : Task.t) :
  output_file k = output_file k' -> Task.id k = Task.id k'.
Proof.
  unfold output_file. intros H. apply append_inj_l in H. by apply append_inj_r in H.
Qed.

Lemma write_file_new (name : string) (content : json.text)
    (dir : list (string * json.text)) :
  (name, content) ∈ write_file name content dir.
Proof. unfold write_file. apply elem_of_app. right. by apply list_elem_of_singleton. Qed.

Lemma write_file_other (name : string) (content : json.text)
    (dir : list (string * json.text)) (f : string * json.text) :
  f ∈ dir -> f.1 <> name -> f ∈ write_file name content dir.
Proof.
  intros Hin Hne. unfold write_file. apply elem_of_app. left.
  by apply list_elem_of_filter.
Qed.

Lemma step_files_kept (l : label) (s s' : state) :
  files_kept s -> step l s = Some s' -> files_kept s'.
Proof.
  intros [Hm Hfiles] Hstep. split; [by eapply step_minted|].
  destruct (step_cases l s s' Hstep) as [_ [Hq|[Ha|Hc]]].
  - destruct Hq as (-> & -> & _). done.
  - destruct Ha as (ty & path & prio & now & -> & -> & _).
    intros i k Hi Hst. apply lookup_snoc_Some in Hi as [[_ Hi]|[_ <-]];
      [by eapply Hfiles | done].
  - destruct Hc as (j & batch & p0 & p & task & task' & _ & _ & _ & Hj & -> & _ & Hsame & _ & Hres).
    intros i k Hi Hst. apply list_lookup_insert_Some in Hi as [(<- & <- & _)|[Hne Hi]].
    + destruct Hres as [[_ ->]|[Hnot _]]; [apply write_file_new | done].
    + specialize (Hfiles i k Hi Hst).
      destruct Hres as [[_ ->]|[_ ->]]; [|done].
      apply write_file_other; [done|]. simpl. intros Hname.
      apply output_file_inj in Hname.
      destruct (Hm i k Hi) as (ty & now & Hid).
      destruct (Hm j task Hj) as (ty' & now' & Hid').
      destruct Hsame as [Hsid _].
      assert (Heq : mint_id ty i now = mint_id ty' j now') by congruence.
      apply mint_id_inj in Heq as [_ ?]. congruence.
Qed.

End StoreAndFiles.

(** X7: [run] never updates the store.  In every history of a queue that
    started empty, each queued record, whatever its status in memory, still
    has in the table the row [add_task] wrote for it, with status pending
    and result NULL, and [get_pending_tasks] still returns that row. *)
Theorem store_rows_stay_pending
    (s0 s : TaskQueue.state) (ls : list TaskQueue.label) (i : nat) (k : Task.t) :
  History.boot s0 -> TaskQueue.exec ls s0 = Some s ->
  TaskQueue.tasks (TaskQueue.queue s) !! i = Some k ->
  History.row_as_enqueued k ∈ TaskQueue.db s
  /\ History.row_as_enqueued k ∈ Storage.get_pending_tasks (TaskQueue.db s)
  /\ Storage.id (History.row_as_enqueued k) = Task.id k
  /\ Storage.status (History.row_as_enqueued k) = Task.pending
  /\ Storage.result (History.row_as_enqueued k) = None.
Proof.
  intros Hboot Hexec Hi.
  assert (Hkept : History.rows_kept s).
  { eapply (exec_preserves History.rows_kept); [|exact Hexec|].
    - intros l s1 s2 H Hstep. by eapply step_rows_kept.
    - split; [by apply boot_minted|]. destruct Hboot as [_ Ht].
      intros j k0 Hj. by rewrite Ht, lookup_nil in Hj. }
  destruct Hkept as [_ Hrows]. specialize (Hrows i k Hi).
  split; [done|]. split; [|done].
  unfold Storage.get_pending_tasks. rewrite order_by_priority_desc_perm.
  by apply list_elem_of_filter.
Qed.

(** X7 at record 0 of the five jobs once the first batch has settled: the
    record is completed and its row is still pending. *)
Lemma store_rows_stay_pending_witness :
  exists s k,
    TaskQueue.exec (Scenario.to_first_batch ++ Scenario.start_three
                    ++ Scenario.settle_three) Scenario.start = Some s
    /\ TaskQueue.tasks (TaskQueue.queue s) !! 0 = Some k
    /\ Task.status k = Task.completed
    /\ History.row_as_enqueued k ∈ TaskQueue.db s
    /\ History.row_as_enqueued k ∈ Storage.get_pending_tasks (TaskQueue.db s)
    /\ Storage.id (History.row_as_enqueued k) = Task.id k
    /\ Storage.status (History.row_as_enqueued k) = Task.pending
    /\ Storage.result (History.row_as_enqueued k) = None.
Proof.
  eexists _, _. split; [vm_compute; reflexivity|].
  split; [vm_compute; reflexivity|]. split; [reflexivity|].
  eapply (store_rows_stay_pending Scenario.start _
            (Scenario.to_first_batch ++ Scenario.start_three ++ Scenario.settle_three) 0).
  - split; reflexivity.
  - vm_compute. reflexivity.
  - vm_compute. reflexivity.
Defined.

(** X8: in every history of a queue that started empty, each record whose
    status is completed has its result file in the [results] directory:
    the file [results/<id>_result.json] holding the document of the record
    as it is now, result included.  No later job overwrites it. *)
Theorem completed_record_has_its_result_file
    (s0 s : TaskQueue.state) (ls : list TaskQueue.label) (i : nat) (k : Task.t) :
  History.boot s0 -> TaskQueue.exec ls s0 = Some s ->
  TaskQueue.tasks (TaskQueue.queue s) !! i = Some k ->
  Task.status k = Task.completed ->
  ("results/" +:+ Task.id k +:+ "_result.json",
   json.dumps (TaskQueue.result_document k)) ∈ TaskQueue.results s.
Proof.
  intros Hboot Hexec Hi Hst.
  assert (Hkept : History.files_kept s).
  { eapply (exec_preserves History.files_kept); [|exact Hexec|].
    - intros l s1 s2 H Hstep. by eapply step_files_kept.
    - split; [by apply boot_minted|]. destruct Hboot as [_ Ht].
      intros j k0 Hj. by rewrite Ht, lookup_nil in Hj. }
  destruct Hkept as [_ Hfiles]. exact (Hfiles i k Hi Hst).
Qed.

(** X8 at record 1 of the five jobs once both batches have settled. *)
Lemma completed_record_has_its_result_file_witness :
  exists s k,
    TaskQueue.exec (Scenario.to_first_batch ++ Scenario.start_three
                    ++ Scenario.settle_three
                    ++ [TaskQueue.Iterate;
                        TaskQueue.Start 3 (inr "a = 1") None;
                        TaskQueue.Start 4 (inr "b = 2") None;
                        TaskQueue.Resume 4 (inr Scenario.reply) None;
                        TaskQueue.Resume 3 (inr Scenario.reply) None;
                        TaskQueue.Settle; TaskQueue.Iterate]) Scenario.start = Some s
    /\ TaskQueue.tasks (TaskQueue.queue s) !! 1 = Some k
    /\ ("results/" +:+ Task.id k +:+ "_result.json",
        json.dumps (TaskQueue.result_document k)) ∈ TaskQueue.results s.
Proof.
  eexists _, _. split; [vm_compute; reflexivity|].
  split; [vm_compute; reflexivity|].
  eapply (completed_record_has_its_result_file Scenario.start _
            (Scenario.to_first_batch ++ Scenario.start_three
             ++ Scenario.settle_three
             ++ [TaskQueue.Iterate;
                 TaskQueue.Start 3 (inr "a = 1") None;
                 TaskQueue.Start 4 (inr "b = 2") None;
                 TaskQueue.Resume 4 (inr Scenario.reply) None;
                 TaskQueue.Resume 3 (inr Scenario.reply) None;
                 TaskQueue.Settle; TaskQueue.Iterate]) 1).
  - split; reflexivity.
  - vm_compute. reflexivity.
  - vm_compute. reflexivity.
  - reflexivity.
Defined.

Section StoreBlind.

Import TaskQueue Inv History.

(** A slice of [run] does the same in two processes that differ in the
    table only, and leaves the table as it finds it. *)
Lemma run_step_ignores_store (l : label) (d : Storage.table) (s : state) :
  is_run_label l = true ->
  step l (with_db d s) = with_db d <$> step l s.
Proof.
  intros Hl. unfold step. destruct l; try discriminate Hl; simpl.
  - by destruct (loop s).
  - destruct (loop s) as [|b|]; [done| |done].
    destruct (running (queue s) && _); [|done].
    by destruct (pending_tasks (tasks (queue s))).
  - destruct (loop s) as [| |batch]; [done..|].
    destruct (pc_of i batch) as [[| |]|]; try done.
    destruct (tasks (queue s) !! i) as [task|]; [|done].
    by destruct (process_task_begin read write task (results s)) as [[[? ?] ?] ?].
  - destruct (loop s) as [| |batch]; [done..|].
    destruct (pc_of i batch) as [[| |]|]; try done.
    destruct (tasks (queue s) !! i) as [task|]; [|done].
    by destruct (process_task_resume reply write task (results s)) as [[? ?] ?].
  - destruct (loop s) as [| |batch]; [done..|].
    by destruct (all_finished batch).
Qed.

End StoreBlind.

(** X9: [run] neither reads nor writes the store.  Take any sequence of
    slices of [run] and of its coroutines and two processes that differ
    only in the content of the table: the sequence is possible in one
    exactly when it is in the other, it leads to states that again differ
    only in the table, and each table is what it was. *)
Theorem run_is_blind_to_the_store
    (ls : list TaskQueue.label) (d : Storage.table) (s : TaskQueue.state) :
  Forall (fun l => Inv.is_run_label l = true) ls ->
  TaskQueue.exec ls (TaskQueue.with_db d s)
  = TaskQueue.with_db d <$> TaskQueue.exec ls s.
Proof.
  intros Hls. revert s. induction Hls as [|l ls Hl _ IH]; intros s; simpl; [done|].
  rewrite (run_step_ignores_store l d s Hl).
  destruct (TaskQueue.step l s) as [s1|]; simpl; [apply IH | done].
Qed.

(** X9 at one job run to completion, over the table [add_task] left and over
    the empty table. *)
Lemma run_is_blind_to_the_store_witness :
  exists s,
    TaskQueue.exec [Scenario.enqueue 5] Scenario.start = Some s
    /\ TaskQueue.exec
         [TaskQueue.CallRun; TaskQueue.Iterate;
          TaskQueue.Start 0 (inr "x = 1") None;
          TaskQueue.Resume 0 (inr Scenario.reply) None;
          TaskQueue.Settle; TaskQueue.Iterate] (TaskQueue.with_db [] s)
       = TaskQueue.with_db [] <$>
           TaskQueue.exec
             [TaskQueue.CallRun; TaskQueue.Iterate;
              TaskQueue.Start 0 (inr "x = 1") None;
              TaskQueue.Resume 0 (inr Scenario.reply) None;
              TaskQueue.Settle; TaskQueue.Iterate] s.
Proof.
  eexists. split; [vm_compute; reflexivity|].
  apply (run_is_blind_to_the_store
           [TaskQueue.CallRun; TaskQueue.Iterate;
            TaskQueue.Start 0 (inr "x = 1") None;
            TaskQueue.Resume 0 (inr Scenario.reply) None;
            TaskQueue.Settle; TaskQueue.Iterate] []).
  repeat constructor.
Defined.

Section SequentialRun.

Import TaskQueue Inv History Sequential.

Lemma set_pc_set_pc (i : nat) (p q : pc) (batch : list (nat * pc)) :
  set_pc i q (set_pc i p batch) = set_pc i q batch.
Proof.
  unfold set_pc. rewrite <- list_fmap_compose. apply list_fmap_ext.
  intros _ [j r] _. simpl. destruct (j =? i) eqn:E; simpl; [|by rewrite E].
  by rewrite Nat.eqb_refl.
Qed.

Lemma pc_of_NoDup (i : nat) (p : pc) (batch : list (nat * pc)) :
  NoDup batch.*1 -> (i, p) ∈ batch -> pc_of i batch = Some p.
Proof.
  unfold pc_of. induction batch as [|[j q] batch IH]; csimpl; intros Hnd Hin.
  - by apply elem_of_nil in Hin.
  - apply NoDup_cons in Hnd as [Hj Hnd].
    apply elem_of_cons in Hin as [[= <- <-]|Hin].
    + by rewrite Nat.eqb_refl.
    + destruct (j =? i) eqn:E; [|by apply IH].
      apply Nat.eqb_eq in E as ->. exfalso. apply Hj.
      apply list_elem_of_fmap. by exists (i, p).
Qed.

Lemma pc_of_created (i : nat) (b : list nat) :
  i ∈ b -> pc_of i ((fun j => (j, Created)) <$> b) = Some Created.
Proof.
  unfold pc_of. induction b as [|j b IH]; csimpl; intros Hin.
  - by apply elem_of_nil in Hin.
  - destruct (j =? i) eqn:E; [done|].
    apply elem_of_cons in Hin as [->|Hin]; [by rewrite Nat.eqb_refl in E | by apply IH].
Qed.

(** What the first slice of coroutine [i] does to the process. *)
Lemma step_start_inv (i : nat) read write (s s1 : state) :
  step (Start i read write) s = Some s1 ->
  exists batch task task' p,
    loop s = Gather batch /\ pc_of i batch = Some Created
    /\ tasks (queue s) !! i = Some task
    /\ loop s1 = Gather (set_pc i p batch)
    /\ tasks (queue s1) = <[i := task']> (tasks (queue s))
    /\ running (queue s1) = running (queue s)
    /\ db s1 = db s
    /\ (p = Suspended \/ p = Finished).
Proof.
  unfold step. simpl.
  destruct (loop s) as [| |batch] eqn:Hloop; [done..|].
  destruct (pc_of i batch) as [[| |]|] eqn:Hpc; try done.
  destruct (tasks (queue s) !! i) as [task|] eqn:Hi; [|done].
  destruct (process_task_begin read write task (results s))
    as [[[task' p] dir] evs] eqn:Hb.
  intros [= <-]. exists batch, task, task', p. simpl.
  apply process_task_begin_pc in Hb as [_ Hp].
  do 7 (split; [done|]). destruct p; [done | by left | by right].
Qed.

Lemma step_resume_inv (i : nat) reply write (s s1 : state) :
  step (Resume i reply write) s = Some s1 ->
  exists batch task task',
    loop s = Gather batch /\ pc_of i batch = Some Suspended
    /\ tasks (queue s) !! i = Some task
    /\ loop s1 = Gather (set_pc i Finished batch)
    /\ tasks (queue s1) = <[i := task']> (tasks (queue s))
    /\ running (queue s1) = running (queue s)
    /\ db s1 = db s.
Proof.
  unfold step. simpl.
  destruct (loop s) as [| |batch] eqn:Hloop; [done..|].
  destruct (pc_of i batch) as [[| |]|] eqn:Hpc; try done.
  destruct (tasks (queue s) !! i) as [task|] eqn:Hi; [|done].
  destruct (process_task_resume reply write task (results s))
    as [[task' dir] evs] eqn:Hb.
  intros [= <-]. by exists batch, task, task'.
Qed.

(** A created coroutine runs to its end, whatever it is answered; only its
    own record changes. *)
Lemma run_coroutine_finishes (a : answers) (i : nat) (s : state)
    (batch : list (nat * pc)) :
  inv s -> loop s = Gather batch -> pc_of i batch = Some Created ->
  exists s', run_coroutine a i s = Some s'
    /\ inv s' /\ loop s' = Gather (set_pc i Finished batch)
    /\ (forall j, j <> i -> tasks (queue s') !! j = tasks (queue s) !! j)
    /\ length (tasks (queue s')) = length (tasks (queue s))
    /\ running (queue s') = running (queue s)
    /\ db s' = db s.
Proof.
  intros Hinv Hloop Hpc.
  assert (Hok : exists task, tasks (queue s) !! i = Some task).
  { unfold inv in Hinv. rewrite Hloop in Hinv.
    destruct Hinv as (_ & _ & Hco & _). rewrite Forall_forall in Hco.
    destruct (Hco _ (pc_of_elem _ _ _ Hpc)) as (k & Hk & _). eauto. }
  destruct Hok as [task Hi].
  destruct (start_enabled s batch i task (read a) (write a) Hloop Hpc Hi) as [s1 H1].
  unfold run_coroutine. rewrite H1.
  assert (Hinv1 : inv s1) by (by eapply step_inv).
  destruct (step_start_inv _ _ _ _ _ H1)
    as (b & t & t' & p & Hb & _ & _ & Hl1 & Ht1 & Hr1 & Hd1 & Hp).
  assert (b = batch) as -> by congruence.
  rewrite Hl1, (pc_of_set_pc_eq i p Created batch Hpc).
  destruct Hp as [-> | ->].
  - assert (Hi1 : tasks (queue s1) !! i = Some t').
    { rewrite Ht1. apply list_lookup_insert_eq. by eapply lookup_lt_Some. }
    destruct (resume_enabled s1 _ i t' (reply a) (write a) Hl1
                (pc_of_set_pc_eq i Suspended Created batch Hpc) Hi1) as [s2 H2].
    rewrite H2. exists s2. split; [done|].
    destruct (step_resume_inv _ _ _ _ _ H2)
      as (b2 & u & u' & Hb2 & _ & _ & Hl2 & Ht2 & Hr2 & Hd2).
    assert (b2 = set_pc i Suspended batch) as -> by congruence.
    rewrite set_pc_set_pc in Hl2.
    split; [by eapply step_inv|]. split; [done|].
    split; [|split; [|split]].
    + intros j Hne. rewrite Ht2, Ht1. by rewrite !list_lookup_insert_ne.
    + by rewrite Ht2, Ht1, !length_insert.
    + congruence.
    + congruence.
  - exists s1. split; [done|]. split; [done|]. split; [done|].
    split; [|split; [|split]]; [|by rewrite Ht1, length_insert|done..].
    intros j Hne. rewrite Ht1. by rewrite list_lookup_insert_ne.
Qed.

(** [gather] over created coroutines ends with all of them finished. *)
Lemma gather_finishes (o : nat -> answers) (todo : list nat) :
  forall (s : state) (batch : list (nat * pc)),
    NoDup todo -> inv s -> loop s = Gather batch ->
    (forall i, i ∈ todo -> pc_of i batch = Some Created) ->
    exists s' batch',
      gather o todo s = Some s'
      /\ inv s' /\ loop s' = Gather batch'
      /\ batch'.*1 = batch.*1
      /\ (forall i, i ∈ todo -> pc_of i batch' = Some Finished)
      /\ (forall j, j ∉ todo -> pc_of j batch' = pc_of j batch)
      /\ (forall j, j ∉ todo -> tasks (queue s') !! j = tasks (queue s) !! j)
      /\ length (tasks (queue s')) = length (tasks (queue s))
      /\ running (queue s') = running (queue s)
      /\ db s' = db s.
Proof.
  induction todo as [|i todo IH]; intros s batch Hnd Hinv Hloop Hcreated; simpl.
  - exists s, batch. do 4 (split; [done|]).
    split; [intros i Hi; by apply elem_of_nil in Hi|]. done.
  - apply NoDup_cons in Hnd as [Hi Hnd].
    destruct (run_coroutine_finishes (o i) i s batch Hinv Hloop)
      as (s1 & H1 & Hinv1 & Hl1 & Hother1 & Hlen1 & Hrun1 & Hdb1).
    { apply Hcreated. left. }
    rewrite H1.
    destruct (IH s1 (set_pc i Finished batch) Hnd Hinv1 Hl1)
      as (s' & batch' & H' & Hinv' & Hl' & Hfst & Hfin & Hpcs & Hother & Hlen & Hrun & Hdb).
    { intros j Hj. rewrite pc_of_set_pc_ne; [apply Hcreated; by right|].
      intros ->. done. }
    exists s', batch'. split; [done|]. split; [done|]. split; [done|].
    split; [by rewrite Hfst, set_pc_fst|].
    split; [|split; [|split; [|split; [|split]]]].
    + intros j Hj. apply elem_of_cons in Hj as [->|Hj]; [|by apply Hfin].
      rewrite (Hpcs i Hi). by eapply pc_of_set_pc_eq, Hcreated; left.
    + intros j Hj. apply not_elem_of_cons in Hj as [Hne Hj].
      rewrite (Hpcs j Hj). by apply pc_of_set_pc_ne.
    + intros j Hj. apply not_elem_of_cons in Hj as [Hne Hj].
      rewrite (Hother j Hj). by apply Hother1.
    + congruence.
    + congruence.
    + congruence.
Qed.

Lemma length_lt_of_subset (l' l : list nat) (x : nat) :
  NoDup l' -> (forall y, y ∈ l' -> y ∈ l) -> x ∈ l -> x ∉ l' ->
  length l' < length l.
Proof.
  intros Hnd Hsub Hx Hx'.
  assert (Hle : length l' <= length (filter (fun y => y <> x) l)).
  { apply submseteq_length, NoDup_submseteq; [done|].
    intros y Hy. apply list_elem_of_filter. split; [|by apply Hsub].
    intros ->. done. }
  assert (Hlt : length (filter (fun y => y <> x) l) < length l)
    by (apply (length_filter_lt _ l x Hx); auto).
  lia.
Qed.

(** One iteration of the loop over a non-empty selection: the batch is run
    and settled, and fewer records are pending than before. *)
Lemma iteration_settles (o : nat -> answers) (s : state) (b0 : list nat)
    (i0 : nat) (rest : list nat) :
  inv s -> loop s = LoopHead b0 ->
  pending_tasks (tasks (queue s)) = i0 :: rest ->
  let batch := (fun i => (i, Created)) <$> take 3 (i0 :: rest) in
  exists s2 s3,
    gather o batch.*1 (with_loop (Gather batch) s) = Some s2
    /\ step Settle s2 = Some s3
    /\ inv s3 /\ loop s3 = LoopHead (take 3 (i0 :: rest))
    /\ length (pending_tasks (tasks (queue s3))) < length (pending_tasks (tasks (queue s)))
    /\ length (tasks (queue s3)) = length (tasks (queue s))
    /\ running (queue s3) = running (queue s)
    /\ db s3 = db s.
Proof.
  intros Hinv Hloop Hpend batch.
  set (s1 := with_loop (Gather batch) s).
  assert (Hnr : none_running (tasks (queue s))).
  { unfold inv in Hinv. rewrite Hloop in Hinv. by destruct Hinv. }
  assert (Hinv1 : inv s1).
  { change (inv_on (Gather ((fun i => (i, Created)) <$> take 3 (i0 :: rest)))
              (tasks (queue s))).
    rewrite <- Hpend. by apply inv_on_iterate. }
  assert (Hfst : batch.*1 = take 3 (i0 :: rest)) by apply fst_created.
  assert (Hnd : NoDup batch.*1).
  { rewrite Hfst, <- Hpend.
    eapply sublist_NoDup; [apply pending_tasks_NoDup | apply sublist_take]. }
  destruct (gather_finishes o batch.*1 s1 batch Hnd Hinv1 eq_refl)
    as (s2 & batch' & H2 & Hinv2 & Hl2 & Hfst' & Hfin & _ & Hother & Hlen & Hrun & Hdb).
  { intros i Hi. rewrite Hfst in Hi. by apply pc_of_created. }
  assert (Hall : all_finished batch' = true).
  { unfold all_finished. apply forallb_forall. intros [j p] Hin.
    apply list_elem_of_In in Hin.
    assert (Hj : j ∈ batch.*1).
    { rewrite <- Hfst'. apply list_elem_of_fmap. by exists (j, p). }
    assert (Hnd' : NoDup batch'.*1) by (by rewrite Hfst').
    specialize (Hfin j Hj).
    rewrite (pc_of_NoDup j p batch' Hnd' Hin) in Hfin. by injection Hfin as ->. }
  assert (H3 : step Settle s2
               = Some (with_loop (LoopHead batch'.*1)
                         (emit (progress_updates (tasks (queue s2)) batch'.*1) s2))).
  { unfold step. by rewrite Hl2, Hall. }
  eexists s2, _. split; [exact H2|]. split; [exact H3|].
  assert (Hinv3 := step_inv _ _ _ H3 Hinv2).
  split; [done|]. simpl. split; [by rewrite Hfst', Hfst|].
  split; [|by split].
  apply (length_lt_of_subset _ _ i0).
  - apply pending_tasks_NoDup.
  - intros i Hi. apply pending_tasks_elem in Hi as (k & Hk & Hst).
    destruct (decide (i ∈ batch.*1)) as [Hin|Hout].
    + exfalso. specialize (Hfin i Hin). apply pc_of_elem in Hfin.
      unfold inv in Hinv2. rewrite Hl2 in Hinv2.
      destruct Hinv2 as (_ & _ & Hco & _). rewrite Forall_forall in Hco.
      destruct (Hco _ Hfin) as (k' & Hk' & Hter). simpl in *.
      assert (k' = k) as -> by congruence.
      unfold Task.is_terminal in Hter. by rewrite Hst in Hter.
    + apply pending_tasks_elem. exists k. split; [|done].
      simpl in Hk. rewrite <- Hk. symmetry. exact (Hother i Hout).
  - rewrite Hpend. left.
  - intros Hi. apply pending_tasks_elem in Hi as (k & Hk & Hst).
    assert (Hin : i0 ∈ batch.*1) by (rewrite Hfst; simpl; left).
    specialize (Hfin i0 Hin). apply pc_of_elem in Hfin.
    unfold inv in Hinv2. rewrite Hl2 in Hinv2.
    destruct Hinv2 as (_ & _ & Hco & _). rewrite Forall_forall in Hco.
    destruct (Hco _ Hfin) as (k' & Hk' & Hter). simpl in *.
    assert (k' = k) as -> by congruence.
    unfold Task.is_terminal in Hter. by rewrite Hst in Hter.
Qed.

End SequentialRun.

Section RunReturns.

Import TaskQueue Inv History Sequential.

Lemma run_loop_S (fuel : nat) (o : nat -> answers) (s : state) :
  run_loop (S fuel) o s
  = match step Iterate s with
    | Some s1 =>
        match loop s1 with
        | Idle => Some s1
        | Gather batch =>
            match gather o batch.*1 s1 with
            | Some s2 =>
                match step Settle s2 with
                | Some s3 => run_loop fuel o s3
                | None => None
                end
            | None => None
            end
        | LoopHead _ => None
        end
    | None => None
    end.
Proof. reflexivity. Qed.

Lemma pending_tasks_nil : pending_tasks [] = [].
Proof. reflexivity. Qed.

(** The loop test: [run] leaves the loop, or selects the first three
    pending records. *)
Lemma step_iterate (s : state) (b0 : list nat) :
  loop s = LoopHead b0 ->
  (step Iterate s = Some (with_loop Idle (emit [Returned] s))
   /\ (running (queue s) = true -> pending_tasks (tasks (queue s)) = []))
  \/ (exists i0 rest,
        pending_tasks (tasks (queue s)) = i0 :: rest
        /\ step Iterate s
           = Some (with_loop (Gather ((fun i => (i, Created)) <$> take 3 (i0 :: rest))) s)).
Proof.
  intros Hloop. unfold step. rewrite Hloop.
  destruct (running (queue s)); simpl; [|by left].
  case_bool_decide as Hnil; simpl.
  - left. split; [done|]. intros _. by rewrite Hnil.
  - destruct (pending_tasks (tasks (queue s))) as [|i0 rest] eqn:Hp.
    + by left.
    + right. by exists i0, rest.
Qed.

Lemma run_loop_returns (o : nat -> answers) (n : nat) :
  forall (s : state) (b0 : list nat),
    inv s -> loop s = LoopHead b0 ->
    length (pending_tasks (tasks (queue s))) <= n ->
    exists s', run_loop (S n) o s = Some s'
      /\ inv s' /\ loop s' = Idle
      /\ (running (queue s) = true -> pending_tasks (tasks (queue s')) = [])
      /\ length (tasks (queue s')) = length (tasks (queue s))
      /\ db s' = db s.
Proof.
  induction n as [|n IH]; intros s b0 Hinv Hloop Hlen;
    rewrite run_loop_S;
    (destruct (step_iterate s b0 Hloop) as [[-> Hpend]|(i0 & rest & Hp & ->)];
     [ simpl; eexists; split; [done|]; split;
       [unfold inv in *; rewrite Hloop in Hinv; simpl; by destruct Hinv | done]
     | ]).
  - rewrite Hp in Hlen. simpl in Hlen. lia.
  - destruct (iteration_settles o s b0 i0 rest Hinv Hloop Hp)
      as (s2 & s3 & H2 & H3 & Hinv3 & Hl3 & Hlt & Hlen3 & Hrun3 & Hdb3).
    cbn [loop with_loop]. rewrite H2, H3.
    destruct (IH s3 _ Hinv3 Hl3) as (s' & H' & Hinv' & Hl' & Hpend' & Hlen' & Hdb');
      [lia|].
    exists s'. split; [done|]. split; [done|]. split; [done|].
    split; [|split; congruence]. intros Hr. apply Hpend'. congruence.
Qed.

End RunReturns.

(** X10: [run] returns, and it leaves no record pending or running.  From a
    process in which [run] is not executing and no record is running,
    whatever the file system and the client answer to each job (replies,
    exceptions, failed writes), running the batches one coroutine after the
    other ends after at most one loop test per pending record plus one;
    afterwards every record of the queue is completed or failed, the queue
    has the same records and the store is untouched. *)
Theorem run_settles_every_record (o : nat -> Sequential.answers) (s : TaskQueue.state) :
  TaskQueue.initial s ->
  exists s',
    Sequential.run (S (length (TaskQueue.pending_tasks (TaskQueue.tasks (TaskQueue.queue s)))))
      o s = Some s'
    /\ TaskQueue.loop s' = TaskQueue.Idle
    /\ Forall (fun k => Task.is_terminal k = true) (TaskQueue.tasks (TaskQueue.queue s'))
    /\ length (TaskQueue.tasks (TaskQueue.queue s'))
       = length (TaskQueue.tasks (TaskQueue.queue s))
    /\ TaskQueue.db s' = TaskQueue.db s.
Proof.
  intros Hinit. assert (Hinv := initial_inv s Hinit). destruct Hinit as [Hloop _].
  unfold Sequential.run.
  assert (H1 : TaskQueue.step TaskQueue.CallRun s
               = Some (TaskQueue.with_loop (TaskQueue.LoopHead [])
                         (TaskQueue.emit
                            [TaskQueue.ProgressNew (length (TaskQueue.tasks (TaskQueue.queue s)))]
                            (TaskQueue.with_running true s)))).
  { unfold TaskQueue.step. by rewrite Hloop. }
  rewrite H1. assert (Hinv1 := step_inv _ _ _ H1 Hinv).
  destruct (run_loop_returns o
              (length (TaskQueue.pending_tasks (TaskQueue.tasks (TaskQueue.queue s))))
              _ [] Hinv1 eq_refl)
    as (s' & H' & Hinv' & Hl' & Hpend & Hlen & Hdb); [simpl; lia|].
  exists s'. split; [exact H'|]. split; [done|]. split; [|by split].
  specialize (Hpend eq_refl).
  unfold Inv.inv in Hinv'. rewrite Hl' in Hinv'. simpl in Hinv'.
  apply Forall_lookup. intros i k Hi.
  unfold Inv.none_running in Hinv'. rewrite Forall_lookup in Hinv'.
  specialize (Hinv' i k Hi). simpl in Hinv'.
  unfold Task.is_terminal. destruct (Task.status k) eqn:Hst; try done.
  assert (Hin : i ∈ TaskQueue.pending_tasks (TaskQueue.tasks (TaskQueue.queue s')))
    by (apply pending_tasks_elem; eauto).
  rewrite Hpend in Hin. by apply elem_of_nil in Hin.
Qed.

(** X10 at the five jobs, with the answers of [sample_answers]. *)
Lemma run_settles_every_record_witness :
  exists s,
    TaskQueue.exec Scenario.enqueue_five Scenario.start = Some s
    /\ exists s',
         Sequential.run
           (S (length (TaskQueue.pending_tasks (TaskQueue.tasks (TaskQueue.queue s)))))
           History.sample_answers s = Some s'
         /\ TaskQueue.loop s' = TaskQueue.Idle
         /\ Forall (fun k => Task.is_terminal k = true)
              (TaskQueue.tasks (TaskQueue.queue s'))
         /\ length (TaskQueue.tasks (TaskQueue.queue s'))
            = length (TaskQueue.tasks (TaskQueue.queue s))
         /\ TaskQueue.db s' = TaskQueue.db s.
Proof.
  eexists. split; [vm_compute; reflexivity|].
  apply (run_settles_every_record History.sample_answers).
  split; [reflexivity|]. repeat constructor; discriminate.
Defined.

(** * The client, the jobs it serves, and the watcher *)

(** X11: [generate_code] never raises and falls back to no improvements.  It
    returns the server's JSON only when a key is configured, the response
    has status 200 and its body parses; in every other case (no key, a
    connection error, another status, an unparsable body) it returns
    [{"improvements": []}].  The client that [OpenRouterClient()] builds
    has no key: it returns [{"improvements": []}] whatever the network
    does, with one warning logged. *)
Theorem generate_code_falls_back
    (self : OpenRouterClient.t) (prompt : string) (net : OpenRouterClient.http) :
  ((OpenRouterClient.generate_code self prompt net).1 = OpenRouterClient.no_improvements
   \/ (OpenRouterClient.no_key self = false
       /\ exists v, net = OpenRouterClient.Responded 200 (inr v)
            /\ OpenRouterClient.generate_code self prompt net = (v, [])))
  /\ OpenRouterClient.generate_code OpenRouterClient.__init__ prompt net
     = (OpenRouterClient.no_improvements,
        [OpenRouterClient.Warning
           "OpenRouter API key not configured, skipping AI improvements"]).
Proof.
  split; [|reflexivity].
  unfold OpenRouterClient.generate_code.
  destruct (OpenRouterClient.no_key self); [by left|].
  destruct net as [e|status [e|v]]; [by left| |].
  - destruct (status =? 200)%Z; by left.
  - destruct (status =? 200)%Z eqn:E; [|by left].
    apply Z.eqb_eq in E as ->. right. split; [done|]. by exists v.
Qed.

Section Jobs.

Import TaskQueue Sequential.

Lemma calls_client_type (task : Task.t) (st : Task.Status) :
  calls_client (Task.set_status st task)
  = (String.eqb (Task.type task) "code_improvement"
     || String.eqb (Task.type task) "test_generation")
    || String.eqb (Task.type task) "dependency_check".
Proof. reflexivity. Qed.

End Jobs.

(** X12: with the client the queue builds, a test_generation or a
    dependency_check job always fails: the method it calls on the client
    does not exist (or, for test_generation, the file could not be read).
    The record ends failed with an error payload, and no result file is
    written. *)
Theorem test_and_dependency_jobs_fail
    (read : Py.exn + string) (net : OpenRouterClient.http) (write : option Py.exn)
    (task : Task.t) (dir : list (string * json.text)) :
  Task.type task = "test_generation" \/ Task.type task = "dependency_check" ->
  exists e,
    Sequential.process_task read net write task dir
    = (Task.set_result (Py.Dict [("error", Py.Str (Py.str e))])
         (Task.set_status Task.failed task),
       dir,
       [TaskQueue.LogError ("Task " +:+ Task.id task +:+ " failed: " +:+ Py.str e)])
    /\ (read = inl e
        \/ e = OpenRouterClient.missing "suggest_tests"
        \/ e = OpenRouterClient.missing "analyze_dependencies").
Proof.
  intros Hty. unfold Sequential.process_task, TaskQueue.process_task_begin.
  rewrite calls_client_type. unfold TaskQueue.reads_file.
  change (Task.type (Task.set_status Task.running task)) with (Task.type task).
  unfold TaskQueue.process_task_resume, Sequential.client_call.
  change (Task.type (Task.set_status Task.running task)) with (Task.type task).
  destruct task as [tid ty path st cr res prio]. simpl in *.
  destruct Hty as [-> | ->]; simpl.
  - destruct read as [e|code]; simpl.
    + exists e. split; [done | by left].
    + exists (OpenRouterClient.missing "suggest_tests").
      split; [reflexivity | right; by left].
  - exists (OpenRouterClient.missing "analyze_dependencies").
    split; [reflexivity | right; by right].
Qed.

(** X12 at a dependency_check job. *)
Lemma test_and_dependency_jobs_fail_witness :
  exists e,
    Sequential.process_task (inr "x = 1") (OpenRouterClient.Raised Scenario.boom) None
      (Task.new Scenario.class_time "dependency_check_0_20240101_120000"
         "dependency_check" "a.py" 0) []
    = (Task.set_result (Py.Dict [("error", Py.Str (Py.str e))])
         (Task.set_status Task.failed
            (Task.new Scenario.class_time "dependency_check_0_20240101_120000"
               "dependency_check" "a.py" 0)),
       [],
       [TaskQueue.LogError
          ("Task " +:+ "dependency_check_0_20240101_120000" +:+ " failed: "
           +:+ Py.str e)])
    /\ (inr "x = 1" = inl e
        \/ e = OpenRouterClient.missing "suggest_tests"
        \/ e = OpenRouterClient.missing "analyze_dependencies").
Proof.
  apply (test_and_dependency_jobs_fail (inr "x = 1")
           (OpenRouterClient.Raised Scenario.boom) None
           (Task.new Scenario.class_time "dependency_check_0_20240101_120000"
              "dependency_check" "a.py" 0) []).
  right. reflexivity.
Defined.

(** X13: with the client the queue builds, a code_improvement job whose file
    can be read and whose result file can be written completes, whatever
    the network does, with the result [{"improvements": []}]; its result
    file holds that document. *)
Theorem code_improvement_job_completes_empty
    (code : string) (net : OpenRouterClient.http)
    (task : Task.t) (dir : list (string * json.text)) :
  Task.type task = "code_improvement" ->
  exists task',
    task' = Task.set_status Task.completed
              (Task.set_result OpenRouterClient.no_improvements
                 (Task.set_status Task.running task))
    /\ (Sequential.process_task (inr code) net None task dir).1
       = (task',
          TaskQueue.write_file (TaskQueue.output_file task)
            (json.dumps (TaskQueue.result_document task')) dir).
Proof.
  intros Hty. eexists. split; [reflexivity|].
  unfold Sequential.process_task, TaskQueue.process_task_begin.
  rewrite calls_client_type. unfold TaskQueue.reads_file.
  change (Task.type (Task.set_status Task.running task)) with (Task.type task).
  unfold TaskQueue.process_task_resume, Sequential.client_call.
  change (Task.type (Task.set_status Task.running task)) with (Task.type task).
  destruct task as [tid ty path st cr res prio]. simpl in *. subst ty. reflexivity.
Qed.

(** X13 at a job whose request fails on the network. *)
Lemma code_improvement_job_completes_empty_witness :
  exists task',
    task' = Task.set_status Task.completed
              (Task.set_result OpenRouterClient.no_improvements
                 (Task.set_status Task.running Scenario.early))
    /\ (Sequential.process_task (inr "x = 1") (OpenRouterClient.Raised Scenario.boom)
          None Scenario.early []).1
       = (task',
          TaskQueue.write_file (TaskQueue.output_file Scenario.early)
            (json.dumps (TaskQueue.result_document task')) []).
Proof.
  apply (code_improvement_job_completes_empty "x = 1"
           (OpenRouterClient.Raised Scenario.boom) Scenario.early []).
  reflexivity.
Defined.

Section Watcher.

Import TaskQueue History.

Lemma on_modified_appends (now : datetime.t) (src_path : string) (s : state) (h : string) :
  storage (queue s) = Some h -> Py.endswith src_path ".py" = true ->
  exists k s',
    step (Modified now None src_path) s = Some s'
    /\ tasks (queue s') = tasks (queue s) ++ [k]
    /\ storage (queue s') = Some h
    /\ Task.input_path k = pathlib.Path src_path /\ Task.type k = "code_improvement"
    /\ Task.priority k = 5%Z /\ Task.status k = Task.pending.
Proof.
  intros Hst Hpy.
  assert (Hstep : step (Modified now None src_path) s
                  = Some (on_modified now None src_path s).2)
    by (unfold step; by destruct (loop s)).
  rewrite Hstep. unfold on_modified, add_task. rewrite Hpy, Hst. simpl.
  eexists _, _. split; [reflexivity|]. simpl. done.
Qed.

End Watcher.

(** X15: the watcher does not coalesce events.  On a queue that has a store
    (every write answered), a sequence of modification events for paths
    ending in [.py] appends one pending code_improvement record of
    priority 5 per event, in the order of the events, the same path as
    often as it was reported; the input path of each record is
    [Path(event.src_path)], the event's path as pathlib normalises it. *)
Theorem every_modification_enqueues_a_record
    (events : list (datetime.t * string)) (s : TaskQueue.state) (h : string) :
  TaskQueue.storage (TaskQueue.queue s) = Some h ->
  Forall (fun e => Py.endswith e.2 ".py" = true) events ->
  exists s' new,
    TaskQueue.exec (History.modifications events) s = Some s'
    /\ TaskQueue.tasks (TaskQueue.queue s') = TaskQueue.tasks (TaskQueue.queue s) ++ new
    /\ Task.input_path <$> new = pathlib.Path <$> events.*2
    /\ Forall (fun k => Task.type k = "code_improvement" /\ Task.priority k = 5%Z
                        /\ Task.status k = Task.pending) new.
Proof.
  intros Hst Hev. revert s Hst.
  induction Hev as [|[now path] events Hpy _ IH]; intros s Hst.
  - exists s, []. split; [done|]. split; [by rewrite app_nil_r|]. done.
  - destruct (on_modified_appends now path s h Hst Hpy)
      as (k & s1 & Hstep & Ht1 & Hst1 & Hpath & Hty & Hprio & Hstat).
    destruct (IH s1 Hst1) as (s' & new & Hexec & Ht' & Hpaths & Hall).
    exists s', (k :: new).
    change (History.modifications ((now, path) :: events))
      with (TaskQueue.Modified now None path :: History.modifications events).
    cbn [TaskQueue.exec]. rewrite Hstep.
    split; [done|]. split; [by rewrite Ht', Ht1, <- app_assoc|].
    split; [csimpl; by rewrite Hpath, Hpaths|]. by constructor.
Qed.

(** X15 at a file reported twice, under two spellings of its path, and
    another reported once. *)
Lemma every_modification_enqueues_a_record_witness :
  exists s' new,
    TaskQueue.exec
      (History.modifications
         [(Scenario.noon, "./src/a.py"); (Scenario.noon, "src//a.py");
          (Scenario.later, "src/b.py")]) Scenario.start = Some s'
    /\ TaskQueue.tasks (TaskQueue.queue s')
       = TaskQueue.tasks (TaskQueue.queue Scenario.start) ++ new
    /\ Task.input_path <$> new = ["src/a.py"; "src/a.py"; "src/b.py"]
    /\ Forall (fun k => Task.type k = "code_improvement" /\ Task.priority k = 5%Z
                        /\ Task.status k = Task.pending) new.
Proof.
  apply (every_modification_enqueues_a_record
           [(Scenario.noon, "./src/a.py"); (Scenario.noon, "src//a.py");
            (Scenario.later, "src/b.py")] Scenario.start TaskQueue.Storage_handle).
  - reflexivity.
  - repeat constructor.
Defined.

(** X16: the [run] command starts from a new queue, and [run] looks at the
    queue only: whatever rows the store holds, pending ones included, the
    command returns at the first loop test with nothing selected, no
    record, no result file, and the store as it was. *)
Theorem cli_run_processes_nothing (t0 : datetime.t) (db0 : Storage.table) :
  exists s',
    History.cli_run t0 db0 = Some s'
    /\ TaskQueue.loop s' = TaskQueue.Idle
    /\ TaskQueue.tasks (TaskQueue.queue s') = []
    /\ TaskQueue.results s' = []
    /\ TaskQueue.trace s' = [TaskQueue.ProgressNew 0; TaskQueue.Returned]
    /\ TaskQueue.db s' = db0
    /\ Storage.get_pending_tasks (TaskQueue.db s') = Storage.get_pending_tasks db0.
Proof. eexists. split; [reflexivity|]. done. Qed.

Section ProgressFacts.

Import TaskQueue Inv History.

Lemma process_task_begin_settled read write task dir task' p dir' evs :
  process_task_begin read write task dir = (task', p, dir', evs) ->
  Forall settled_update evs.
Proof.
  unfold process_task_begin, complete, _save_result, on_exception.
  destruct (calls_client (Task.set_status Task.running task)),
    (reads_file (Task.set_status Task.running task)), read, write; simpl;
    intros [= <- <- <- <-]; by repeat constructor.
Qed.

Lemma process_task_resume_settled reply write task dir task' dir' evs :
  process_task_resume reply write task dir = (task', dir', evs) ->
  Forall settled_update evs.
Proof.
  unfold process_task_resume, complete, _save_result, on_exception.
  destruct reply, write; simpl; intros [= <- <- <-]; by repeat constructor.
Qed.

Lemma progress_updates_settled (l : list Task.t) (b : list nat) :
  all_terminal l b -> Forall settled_update (progress_updates l b).
Proof.
  intros Hter. unfold progress_updates. apply Forall_forall. intros e He.
  apply list_elem_of_omap in He as (i & Hi & He).
  destruct (Hter i Hi) as (k & Hk & Hkt). rewrite Hk in He. simpl in He.
  injection He as <-. simpl. unfold Task.is_terminal in Hkt.
  destruct (Task.status k); try done; simpl; auto.
Qed.

Lemma step_settled (l : label) (s s' : state) :
  inv s -> step l s = Some s' ->
  exists evs, trace s' = trace s ++ evs /\ Forall settled_update evs.
Proof.
  intros Hinv. unfold step. intros Hstep. destruct l; simpl in Hstep.
  - destruct (loop s); simplify_eq/=. eexists. split; [done|]. by repeat constructor.
  - destruct (loop s) as [|b|]; [done| |done].
    assert (Hcases : s' = with_loop Idle (emit [Returned] s)
              \/ exists b', s' = with_loop (Gather b') s).
    { destruct (running (queue s) && _); [|left; by simplify_eq/=].
      destruct (pending_tasks (tasks (queue s))); simplify_eq/=; eauto. }
    destruct Hcases as [->|[b' ->]]; simpl.
    + eexists. split; [done|]. by repeat constructor.
    + exists []. split; [by rewrite app_nil_r | constructor].
  - destruct (loop s) as [| |batch] eqn:Hloop; [done..|].
    destruct (pc_of i batch) as [[| |]|] eqn:Hpc; try done.
    destruct (tasks (queue s) !! i) as [task|] eqn:Hi; [|done].
    destruct (process_task_begin read write task (results s))
      as [[[task' p] dir] evs] eqn:Hb.
    simplify_eq/=. exists evs. split; [done|]. by eapply process_task_begin_settled.
  - destruct (loop s) as [| |batch] eqn:Hloop; [done..|].
    destruct (pc_of i batch) as [[| |]|] eqn:Hpc; try done.
    destruct (tasks (queue s) !! i) as [task|] eqn:Hi; [|done].
    destruct (process_task_resume reply write task (results s))
      as [[task' dir] evs] eqn:Hb.
    simplify_eq/=. exists evs. split; [done|]. by eapply process_task_resume_settled.
  - destruct (loop s) as [| |batch] eqn:Hloop; [done..|].
    destruct (all_finished batch) eqn:Hfin; simplify_eq/=.
    eexists. split; [done|]. apply progress_updates_settled.
    unfold inv in Hinv. rewrite Hloop in Hinv.
    by destruct (inv_on_settle batch _ Hinv Hfin).
  - assert (s' = (add_task now fault task_type input_path priority s).2) as ->
      by (destruct (loop s); by simplify_eq/=).
    unfold add_task. destruct (storage (queue s));
      [|exists []; split; [by rewrite app_nil_r | constructor]].
    destruct fault; simpl; (eexists; split; [done|]; by repeat constructor).
  - assert (s' = (on_modified now fault src_path s).2) as ->
      by (destruct (loop s); by simplify_eq/=).
    unfold on_modified.
    destruct (Py.endswith src_path ".py");
      [|exists []; split; [by rewrite app_nil_r | constructor]].
    unfold add_task. destruct (storage (queue s));
      [|exists []; split; [by rewrite app_nil_r | constructor]].
    destruct fault; simpl; (eexists; split; [done|]; by repeat constructor).
  - assert (s' = with_running false s) as ->
      by (destruct (loop s); by simplify_eq/=).
    exists []. split; [by rewrite app_nil_r | constructor].
Qed.

End ProgressFacts.

(** X17: the progress tracker is only told of settled records.  In every
    history that started with no running record, each [progress.update]
    that [run] makes carries the status completed with the message
    "Completed" or the status failed with the message "Failed"; none
    reports a pending or running record. *)
Theorem progress_reports_settled_records
    (s0 s : TaskQueue.state) (ls : list TaskQueue.label)
    (path : string) (st : Task.Status) (msg : string) :
  TaskQueue.initial s0 -> TaskQueue.exec ls s0 = Some s ->
  TaskQueue.ProgressUpdate path st msg ∈ Contract.emitted s0 s ->
  (st = Task.completed /\ msg = "Completed") \/ (st = Task.failed /\ msg = "Failed").
Proof.
  intros Hinit Hexec Hin.
  assert (H : Inv.inv s
              /\ exists evs, TaskQueue.trace s = TaskQueue.trace s0 ++ evs
                   /\ Forall History.settled_update evs).
  { eapply (exec_preserves
              (fun s1 => Inv.inv s1
                 /\ exists evs, TaskQueue.trace s1 = TaskQueue.trace s0 ++ evs
                      /\ Forall History.settled_update evs)); [|exact Hexec|].
    - intros l s1 s2 (Hinv1 & evs & Htr & Hall) Hstep.
      split; [by eapply step_inv|].
      destruct (step_settled l s1 s2 Hinv1 Hstep) as (evs' & Htr' & Hall').
      exists (evs ++ evs'). split; [by rewrite Htr', Htr, app_assoc|].
      by apply Forall_app.
    - split; [by apply initial_inv|]. exists []. by rewrite app_nil_r. }
  destruct H as (_ & evs & Htr & Hall).
  rewrite (emitted_app s0 s evs Htr) in Hin.
  rewrite Forall_forall in Hall. exact (Hall _ Hin).
Qed.

(** X17 at the first batch of the five jobs: the update for record 2. *)
Lemma progress_reports_settled_records_witness :
  exists s,
    TaskQueue.exec (Scenario.to_first_batch ++ Scenario.start_three
                    ++ Scenario.settle_three) Scenario.start = Some s
    /\ TaskQueue.ProgressUpdate "a.py" Task.failed "Failed"
         ∈ Contract.emitted Scenario.start s
    /\ ((Task.failed = Task.completed /\ "Failed" = "Completed")
        \/ (Task.failed = Task.failed /\ "Failed" = "Failed")).
Proof.
  eexists. split; [vm_compute; reflexivity|].
  assert (Hin : TaskQueue.ProgressUpdate "a.py" Task.failed "Failed"
                ∈ Contract.emitted Scenario.start
                    (default Scenario.start
                       (TaskQueue.exec (Scenario.to_first_batch ++ Scenario.start_three
                                        ++ Scenario.settle_three) Scenario.start))).
  { apply list_elem_of_In. vm_compute.
    repeat (first [left; reflexivity | right]). }
  split; [exact Hin|].
  eapply (progress_reports_settled_records Scenario.start _
            (Scenario.to_first_batch ++ Scenario.start_three ++ Scenario.settle_three)
            "a.py" Task.failed "Failed").
  - split; [reflexivity | constructor].
  - vm_compute. reflexivity.
  - exact Hin.
Defined.

(** * The order of [get_pending_tasks] after enqueues *)

Section EnqueuedRows.

Import Storage TaskQueue History.








End EnqueuedRows.



(** * A job that fails *)

Section Failures.

Import TaskQueue Inv History.

(** The slice in which the [except] block of coroutine [i] catches [e]. *)
Lemma step_caught (l : label) (s s' : state) (i : nat) (task : Task.t) (e : Py.exn) :
  coroutine_of l = Some i ->
  tasks (queue s) !! i = Some task ->
  caught l task = Some e ->
  step l s = Some s' ->
  exists batch task',
    loop s = Gather batch /\ is_Some (pc_of i batch)
    /\ tasks (queue s') = <[i := task']> (tasks (queue s))
    /\ Task.status task' = Task.failed
    /\ Task.result task' = Py.Dict [("error", Py.Str (Py.str e))]
    /\ loop s' = Gather (set_pc i Finished batch)
    /\ running (queue s') = running (queue s).
Proof.
  intros Hco Hi Hc Hstep. unfold step in Hstep.
  destruct l; try discriminate Hco; simpl in Hco, Hc, Hstep;
    injection Hco as ->;
    (destruct (loop s) as [| |batch] eqn:Hloop; [done..|]);
    (destruct (pc_of i batch) as [[| |]|] eqn:Hpc; try done);
    rewrite Hi in Hstep.
  - unfold process_task_begin, complete, _save_result, on_exception in Hstep.
    change (calls_client (Task.set_status Task.running task))
      with (calls_client task) in Hstep.
    change (reads_file (Task.set_status Task.running task))
      with (reads_file task) in Hstep.
    destruct (calls_client task), (reads_file task), read, write;
      simplify_eq/=; eexists batch, _; by repeat split.
  - unfold process_task_resume, complete, _save_result, on_exception in Hstep.
    destruct reply, write; simplify_eq/=; eexists batch, _; by repeat split.
Qed.

End Failures.

(** C7: at any point of a run, a job fails: in a slice of coroutine [i] the
    [except] block of [process_task] catches an exception [e], raised by
    the read of the input file, by the awaited call on the client or by the
    write of the result file.  Record [i] becomes failed with the payload
    [{'error': str(e)}]; every other record is what it was; [run] is still
    in the same [gather], with every other coroutine where it was and able
    to take its next step; the flag [running] is unchanged; and once all
    coroutines have finished, [gather] returns and the loop goes on to its
    next test. *)
Theorem failure_is_isolated
    (s0 s s' : TaskQueue.state) (ls : list TaskQueue.label)
    (l : TaskQueue.label) (i : nat) (task : Task.t) (e : Py.exn) :
  TaskQueue.initial s0 ->
  TaskQueue.exec ls s0 = Some s ->
  History.coroutine_of l = Some i ->
  TaskQueue.tasks (TaskQueue.queue s) !! i = Some task ->
  History.caught l task = Some e ->
  TaskQueue.step l s = Some s' ->
  exists batch,
    TaskQueue.loop s = TaskQueue.Gather batch
    /\ (exists k', TaskQueue.tasks (TaskQueue.queue s') !! i = Some k'
          /\ Task.status k' = Task.failed
          /\ Task.result k' = Py.Dict [("error", Py.Str (Py.str e))])
    /\ (forall j, j <> i ->
          TaskQueue.tasks (TaskQueue.queue s') !! j = TaskQueue.tasks (TaskQueue.queue s) !! j)
    /\ TaskQueue.loop s' = TaskQueue.Gather (TaskQueue.set_pc i TaskQueue.Finished batch)
    /\ (forall j, j <> i ->
          TaskQueue.pc_of j (TaskQueue.set_pc i TaskQueue.Finished batch)
          = TaskQueue.pc_of j batch)
    /\ TaskQueue.running (TaskQueue.queue s') = TaskQueue.running (TaskQueue.queue s)
    /\ (forall j read w, j <> i -> TaskQueue.pc_of j batch = Some TaskQueue.Created ->
          is_Some (TaskQueue.step (TaskQueue.Start j read w) s'))
    /\ (forall j reply w, j <> i -> TaskQueue.pc_of j batch = Some TaskQueue.Suspended ->
          is_Some (TaskQueue.step (TaskQueue.Resume j reply w) s'))
    /\ (TaskQueue.all_finished (TaskQueue.set_pc i TaskQueue.Finished batch) = true ->
          exists s'', TaskQueue.step TaskQueue.Settle s' = Some s''
            /\ is_Some (TaskQueue.step TaskQueue.Iterate s'')).
Proof.
  intros Hinit Hexec Hco Hi Hcaught Hstep.
  assert (Hinv : Inv.inv s) by (eapply exec_inv; [exact Hexec | by apply initial_inv]).
  destruct (step_caught l s s' i task e Hco Hi Hcaught Hstep)
    as (batch & task' & Hloop & _ & Ht & Hst & Hres & Hloop' & Hrun).
  exists batch. split; [done|].
  unfold Inv.inv in Hinv. rewrite Hloop in Hinv.
  destruct Hinv as (_ & _ & Hcor & _). rewrite Forall_forall in Hcor.
  assert (Hother : forall j, j <> i ->
            TaskQueue.tasks (TaskQueue.queue s') !! j
            = TaskQueue.tasks (TaskQueue.queue s) !! j).
  { intros j Hne. rewrite Ht. by apply list_lookup_insert_ne. }
  split.
  { exists task'. split; [|done]. rewrite Ht.
    apply list_lookup_insert_eq. by eapply lookup_lt_Some. }
  split; [done|]. split; [done|].
  split; [intros j Hne; by apply pc_of_set_pc_ne|].
  split; [done|]. split; [|split].
  - intros j read w Hne Hj.
    destruct (Hcor _ (pc_of_elem _ _ _ Hj)) as (k & Hk & _). simpl in Hk.
    eapply start_enabled; [exact Hloop' | | by rewrite Hother].
    by rewrite pc_of_set_pc_ne.
  - intros j reply w Hne Hj.
    destruct (Hcor _ (pc_of_elem _ _ _ Hj)) as (k & Hk & _). simpl in Hk.
    eapply resume_enabled; [exact Hloop' | | by rewrite Hother].
    by rewrite pc_of_set_pc_ne.
  - intros Hfin. unfold TaskQueue.step at 1. rewrite Hloop', Hfin.
    eexists. split; [reflexivity|]. by eapply iterate_enabled.
Qed.

(** C7 at the five jobs, when the input file of record 1 cannot be read
    while record 0 awaits the client and record 2 has not started. *)
Lemma failure_is_isolated_witness :
  exists s s' task,
    TaskQueue.exec (Scenario.to_first_batch
                    ++ [TaskQueue.Start 0 (inr "x = 1") None]) Scenario.start = Some s
    /\ TaskQueue.tasks (TaskQueue.queue s) !! 1 = Some task
    /\ TaskQueue.step (TaskQueue.Start 1 (inl Scenario.boom) None) s = Some s'
    /\ exists batch,
    TaskQueue.loop s = TaskQueue.Gather batch
    /\ (exists k', TaskQueue.tasks (TaskQueue.queue s') !! 1 = Some k'
          /\ Task.status k' = Task.failed
          /\ Task.result k' = Py.Dict [("error", Py.Str (Py.str Scenario.boom))])
    /\ (forall j, j <> 1 ->
          TaskQueue.tasks (TaskQueue.queue s') !! j = TaskQueue.tasks (TaskQueue.queue s) !! j)
    /\ TaskQueue.loop s' = TaskQueue.Gather (TaskQueue.set_pc 1 TaskQueue.Finished batch)
    /\ (forall j, j <> 1 ->
          TaskQueue.pc_of j (TaskQueue.set_pc 1 TaskQueue.Finished batch)
          = TaskQueue.pc_of j batch)
    /\ TaskQueue.running (TaskQueue.queue s') = TaskQueue.running (TaskQueue.queue s)
    /\ (forall j read w, j <> 1 -> TaskQueue.pc_of j batch = Some TaskQueue.Created ->
          is_Some (TaskQueue.step (TaskQueue.Start j read w) s'))
    /\ (forall j reply w, j <> 1 -> TaskQueue.pc_of j batch = Some TaskQueue.Suspended ->
          is_Some (TaskQueue.step (TaskQueue.Resume j reply w) s'))
    /\ (TaskQueue.all_finished (TaskQueue.set_pc 1 TaskQueue.Finished batch) = true ->
          exists s'', TaskQueue.step TaskQueue.Settle s' = Some s''
            /\ is_Some (TaskQueue.step TaskQueue.Iterate s'')).
Proof.
  eexists _, _, _.
  split; [vm_compute; reflexivity|].
  split; [vm_compute; reflexivity|].
  split; [vm_compute; reflexivity|].
  eapply (failure_is_isolated Scenario.start _ _
            (Scenario.to_first_batch ++ [TaskQueue.Start 0 (inr "x = 1") None])
            (TaskQueue.Start 1 (inl Scenario.boom) None) 1 _ Scenario.boom).
  - split; [reflexivity | constructor].
  - vm_compute. reflexivity.
  - reflexivity.
  - vm_compute. reflexivity.
  - reflexivity.
  - vm_compute. reflexivity.
Defined.

Section StatusWrites.

Import TaskQueue Inv History.

(** A slice of coroutine [i] leaves the record the last of its assignments
    made. *)
Lemma step_writes (l : label) (s s' : state) (i : nat) (k : Task.t) :
  coroutine_of l = Some i ->
  tasks (queue s) !! i = Some k ->
  step l s = Some s' ->
  tasks (queue s') !! i = last (writes l k).
Proof.
  intros Hco Hi Hstep. unfold step in Hstep.
  assert (Hlt : i < length (tasks (queue s))) by (by eapply lookup_lt_Some).
  destruct l; try discriminate Hco; simpl in Hco, Hstep;
    injection Hco as ->;
    (destruct (loop s) as [| |batch] eqn:Hloop; [done..|]);
    (destruct (pc_of i batch) as [[| |]|] eqn:Hpc; try done);
    rewrite Hi in Hstep.
  - unfold process_task_begin, complete in Hstep. unfold writes.
    change (calls_client (Task.set_status Task.running k))
      with (calls_client k) in *.
    change (reads_file (Task.set_status Task.running k))
      with (reads_file k) in *.
    unfold _save_result, on_exception in *.
    destruct (calls_client k), (reads_file k), read, write;
      simplify_eq/=; by rewrite list_lookup_insert_eq.
  - unfold process_task_resume, complete in Hstep. unfold writes.
    unfold _save_result, on_exception in *.
    destruct reply, write; simplify_eq/=; by rewrite list_lookup_insert_eq.
Qed.

(** In a slice that is enabled the assignments go forward. *)
Lemma step_writes_forward (l : label) (s s' : state) (i : nat) (k : Task.t) :
  inv s ->
  coroutine_of l = Some i ->
  tasks (queue s) !! i = Some k ->
  step l s = Some s' ->
  forward (Task.status k) (Task.status <$> writes l k).
Proof.
  intros Hinv Hco Hi Hstep. unfold step in Hstep.
  destruct l; try discriminate Hco; simpl in Hco, Hstep;
    injection Hco as ->;
    (destruct (loop s) as [| |batch] eqn:Hloop; [done..|]);
    (destruct (pc_of i batch) as [[| |]|] eqn:Hpc; try done);
    unfold inv in Hinv; rewrite Hloop in Hinv;
    destruct Hinv as (_ & _ & Hcor & _); rewrite Forall_forall in Hcor;
    destruct (Hcor _ (pc_of_elem _ _ _ Hpc)) as (k1 & Hk1 & Hst); simpl in Hk1, Hst;
    assert (k1 = k) as -> by congruence; clear Hstep.
  - unfold writes.
    change (calls_client (Task.set_status Task.running k))
      with (calls_client k).
    change (reads_file (Task.set_status Task.running k))
      with (reads_file k).
    unfold _save_result, on_exception.
    destruct (calls_client k), (reads_file k), read, write;
      simpl; rewrite Hst; simpl; intuition lia.
  - unfold writes, _save_result, on_exception.
    destruct reply, write; simpl; rewrite Hst; simpl; intuition lia.
Qed.

(** A step that is not a slice of coroutine [i] leaves record [i] alone. *)
Lemma step_other (l : label) (s s' : state) (i : nat) (k : Task.t) :
  coroutine_of l <> Some i ->
  tasks (queue s) !! i = Some k ->
  step l s = Some s' ->
  tasks (queue s') !! i = Some k.
Proof.
  intros Hco Hi Hstep.
  destruct l as [| |j read write|j reply write| |now fault ty path prio
                 |now fault src|].
  - unfold step in Hstep. destruct (loop s); by simplify_eq/=.
  - unfold step in Hstep. destruct (loop s) as [|b|]; [done| |done].
    destruct (running (queue s) && _); [|by simplify_eq/=].
    destruct (pending_tasks (tasks (queue s))); by simplify_eq/=.
  - assert (j <> i) by (intros ->; by apply Hco).
    apply step_start_inv in Hstep
      as (batch & task & task' & p & _ & _ & _ & _ & -> & _).
    by rewrite list_lookup_insert_ne.
  - assert (j <> i) by (intros ->; by apply Hco).
    apply step_resume_inv in Hstep
      as (batch & task & task' & _ & _ & _ & _ & -> & _).
    by rewrite list_lookup_insert_ne.
  - unfold step in Hstep. destruct (loop s) as [| |b]; [done..|].
    destruct (all_finished b); by simplify_eq/=.
  - unfold step in Hstep.
    assert (s' = (add_task now fault ty path prio s).2)
      by (destruct (loop s); by simplify_eq/=).
    subst s'.
    destruct (add_task_tasks now fault ty path prio s) as [_ [->|(k0 & -> & _)]];
      [done | by apply lookup_app_l_Some].
  - unfold step in Hstep.
    assert (s' = (on_modified now fault src s).2)
      by (destruct (loop s); by simplify_eq/=).
    subst s'.
    destruct (on_modified_tasks now fault src s) as [_ [->|(k0 & -> & _)]];
      [done | by apply lookup_app_l_Some].
  - unfold step in Hstep.
    assert (s' = with_running false s) by (destruct (loop s); by simplify_eq/=).
    by subst s'.
Qed.

End StatusWrites.

(** X6: how the status of a record moves.  At a point of a history that
    started with no running record, take record [i].  (1) A slice of its
    own coroutine assigns [task.status] one to three times (line 52, line
    66, line 70): each assignment moves the status to a later rank of
    pending, running, completed-or-failed, except that a record just set to
    completed is set to failed, and its result replaced, when the write of
    its result file raises; the record the slice leaves is the one of its
    last assignment.  (2) No other step writes the record.  (3) Hence from
    one slice boundary to a later one the record is unchanged or at a later
    rank, and a record seen completed or failed at a slice boundary stays
    as it is. *)
Theorem status_only_moves_forward
    (s0 s : TaskQueue.state) (ls0 : list TaskQueue.label)
    (i : nat) (k : Task.t) :
  TaskQueue.initial s0 ->
  TaskQueue.exec ls0 s0 = Some s ->
  TaskQueue.tasks (TaskQueue.queue s) !! i = Some k ->
  (forall l s', TaskQueue.step l s = Some s' -> History.coroutine_of l = Some i ->
     History.forward (Task.status k) (Task.status <$> History.writes l k)
     /\ TaskQueue.tasks (TaskQueue.queue s') !! i = last (History.writes l k))
  /\ (forall l s', TaskQueue.step l s = Some s' -> History.coroutine_of l <> Some i ->
     TaskQueue.tasks (TaskQueue.queue s') !! i = Some k)
  /\ (forall ls s', TaskQueue.exec ls s = Some s' ->
     exists k', TaskQueue.tasks (TaskQueue.queue s') !! i = Some k'
       /\ (k' = k \/ History.rank (Task.status k) < History.rank (Task.status k'))
       /\ (Task.is_terminal k = true -> k' = k)).
Proof.
  intros Hinit H0 Hi.
  assert (Hinv : Inv.inv s) by (eapply exec_inv; [exact H0 | by apply initial_inv]).
  split; [|split].
  - intros l s' Hstep Hco. split.
    + by eapply step_writes_forward.
    + by eapply step_writes.
  - intros l s' Hstep Hco. by eapply step_other.
  - intros ls s' Hexec.
    assert (H : Inv.inv s'
                /\ exists k', TaskQueue.tasks (TaskQueue.queue s') !! i = Some k'
                     /\ (k' = k \/ History.rank (Task.status k)
                                     < History.rank (Task.status k'))).
    { eapply (exec_preserves
                (fun s1 => Inv.inv s1
                   /\ exists k', TaskQueue.tasks (TaskQueue.queue s1) !! i = Some k'
                        /\ (k' = k \/ History.rank (Task.status k)
                                        < History.rank (Task.status k'))));
        [|exact Hexec|].
      - intros l s1 s2 (Hinv1 & k1 & Hk1 & Hr1) Hstep.
        split; [by eapply step_inv|].
        destruct (step_status_forward l s1 s2 i k1 Hinv1 Hstep Hk1) as (k2 & Hk2 & Hr2).
        exists k2. split; [done|].
        destruct Hr1 as [->|Hr1], Hr2 as [->|Hr2]; auto. right. lia.
      - split; [done|]. exists k. auto. }
    destruct H as (_ & k' & Hk' & Hr). exists k'. split; [done|]. split; [done|].
    intros Hter. apply terminal_rank in Hter.
    destruct Hr as [->|Hr]; [done|].
    assert (History.rank (Task.status k') <= 2) by (destruct (Task.status k'); simpl; lia).
    lia.
Qed.

(** X6 at record 0 of the five jobs: the client has replied and the write
    of the result file raises, so the slice sets the record to completed
    and then to failed. *)
Lemma status_only_moves_forward_witness :
  exists s s' k,
    TaskQueue.exec (Scenario.to_first_batch ++ Scenario.start_three)
      Scenario.start = Some s
    /\ TaskQueue.tasks (TaskQueue.queue s) !! 0 = Some k
    /\ Task.status k = Task.running
    /\ TaskQueue.step
         (TaskQueue.Resume 0 (inr Scenario.reply) (Some Scenario.boom)) s = Some s'
    /\ Task.status <$> History.writes
         (TaskQueue.Resume 0 (inr Scenario.reply) (Some Scenario.boom)) k
       = [Task.completed; Task.failed]
    /\ (Task.status <$> TaskQueue.tasks (TaskQueue.queue s') !! 0) = Some Task.failed
    /\ (forall l s', TaskQueue.step l s = Some s' -> History.coroutine_of l = Some 0 ->
          History.forward (Task.status k) (Task.status <$> History.writes l k)
          /\ TaskQueue.tasks (TaskQueue.queue s') !! 0 = last (History.writes l k))
    /\ (forall l s', TaskQueue.step l s = Some s' -> History.coroutine_of l <> Some 0 ->
          TaskQueue.tasks (TaskQueue.queue s') !! 0 = Some k)
    /\ (forall ls s', TaskQueue.exec ls s = Some s' ->
          exists k', TaskQueue.tasks (TaskQueue.queue s') !! 0 = Some k'
            /\ (k' = k \/ History.rank (Task.status k) < History.rank (Task.status k'))
            /\ (Task.is_terminal k = true -> k' = k)).
Proof.
  eexists _, _, _. split; [vm_compute; reflexivity|].
  split; [vm_compute; reflexivity|].
  split; [reflexivity|].
  split; [vm_compute; reflexivity|].
  split; [reflexivity|].
  split; [vm_compute; reflexivity|].
  eapply (status_only_moves_forward Scenario.start _
            (Scenario.to_first_batch ++ Scenario.start_three) 0).
  - split; [reflexivity | constructor].
  - vm_compute. reflexivity.
  - vm_compute. reflexivity.
Defined.
